(** * The data-normalisation pipeline of the choropleth map

    A shallow embedding of [data-config.js] (class [DataConfig]) and of the
    configuration objects of [main.js], together with the part of the
    JavaScript run-time semantics these two files rely on: IEEE 754 binary64
    numbers, [parseFloat], [Number.prototype.toFixed], the coercions behind
    [<=], [<] and [||], and property lookup on ordinary objects. *)

From Stdlib Require Import ZArith Bool Ascii String DecimalString SpecFloat.
From stdpp Require Import base list strings gmap.

Local Open Scope string_scope.
Local Open Scope Z_scope.

(** ** JavaScript numbers

    A Number is an IEEE 754 binary64 value; [spec_float] at precision 53 and
    maximal exponent 1024 is the Standard Library's specification of them. *)
Module JSNumber.

Definition prec : Z := 53.
Definition emax : Z := 1024.

Definition number := spec_float.

Definition NaN : number := S754_nan.

Definition number_eqb (x y : number) : bool :=
  match x, y with
  | S754_zero a, S754_zero b => Bool.eqb a b
  | S754_infinity a, S754_infinity b => Bool.eqb a b
  | S754_nan, S754_nan => true
  | S754_finite a m e, S754_finite b n f =>
      Bool.eqb a b && Pos.eqb m n && Z.eqb e f
  | _, _ => false
  end.

(** The Number nearest to the integer [z] (ties to even). *)
Definition of_Z (z : Z) : number := binary_normalize prec emax z 0 false.

(** The Number nearest to [(-1)^neg * m * 10^e], for [0 <= m]: the rounding
    applied to the mathematical value of a decimal literal. *)
Definition of_decimal (neg : bool) (m e : Z) : number :=
  match m with
  | Zpos p =>
      if 0 <=? e
      then binary_round prec emax neg (p * Z.to_pos (10 ^ e)) 0
      else SFdiv prec emax (S754_finite neg p 0)
             (S754_finite false (Z.to_pos (10 ^ (- e))) 0)
  | _ => S754_zero neg
  end.

(** [x <= y] and [x < y] on Numbers; both are false when an operand is NaN. *)
Definition leb (x y : number) : bool := SFleb x y.
Definition ltb (x y : number) : bool := SFltb x y.

End JSNumber.

(** ** JavaScript strings

    A string is the sequence of the bytes of its UTF-8 encoding; two
    well-formed strings are equal in JavaScript exactly when these sequences
    are equal. The numeric grammars below only look at ASCII characters and at
    the white space code points. *)
Module JSString.

Definition chars (s : string) : list ascii := list_ascii_of_string s.

Definition bytes (l : list N) : list ascii := map ascii_of_N l.

(** WhiteSpace and LineTerminator code points (TAB, LF, VT, FF, CR, SP,
    U+00A0, U+1680, U+2000 to U+200A, U+2028, U+2029, U+202F, U+205F, U+3000,
    U+FEFF), each in UTF-8. *)
Definition StrWhiteSpaceChar : list (list ascii) :=
  map bytes
    [ [9]; [10]; [11]; [12]; [13]; [32]; [194; 160]; [225; 154; 128];
      [226; 128; 128]; [226; 128; 129]; [226; 128; 130]; [226; 128; 131];
      [226; 128; 132]; [226; 128; 133]; [226; 128; 134]; [226; 128; 135];
      [226; 128; 136]; [226; 128; 137]; [226; 128; 138]; [226; 128; 168];
      [226; 128; 169]; [226; 128; 175]; [226; 129; 159]; [227; 128; 128];
      [239; 187; 191] ]%N.

Fixpoint strip_prefix (w s : list ascii) : option (list ascii) :=
  match w, s with
  | [], _ => Some s
  | a :: w', b :: s' => if Ascii.eqb a b then strip_prefix w' s' else None
  | _ :: _, [] => None
  end.

Fixpoint strip_first (ws : list (list ascii)) (s : list ascii)
  : option (list ascii) :=
  match ws with
  | [] => None
  | w :: ws' =>
      match strip_prefix w s with
      | Some r => Some r
      | None => strip_first ws' s
      end
  end.

Fixpoint trim_with (ws : list (list ascii)) (fuel : nat) (s : list ascii)
  : list ascii :=
  match fuel with
  | O => s
  | S fuel' =>
      match strip_first ws s with
      | Some r => trim_with ws fuel' r
      | None => s
      end
  end.

(** TrimString(s, start) and TrimString(s, end). *)
Definition trim_start (s : list ascii) : list ascii :=
  trim_with StrWhiteSpaceChar (length s) s.

Definition trim_end (s : list ascii) : list ascii :=
  rev (trim_with (map (@rev ascii) StrWhiteSpaceChar) (length s) (rev s)).

(** The decimal digits of a natural number, ["0"] for zero. *)
Definition of_N (n : N) : string := NilZero.string_of_uint (N.to_uint n).

Definition of_Z_abs (z : Z) : string := of_N (Z.abs_N z).

Fixpoint zeros (n : nat) : string :=
  match n with
  | O => ""
  | S n' => String "0" (zeros n')
  end.

End JSString.

(** ** Conversions between strings and Numbers *)
Module JSConv.
Import JSNumber JSString.

Definition is_digit (c : ascii) : bool :=
  let n := N_of_ascii c in ((48 <=? n) && (n <=? 57))%N.

Definition digit_value (c : ascii) : Z := Z.of_N (N_of_ascii c) - 48.

(** DecimalDigits: the longest run of digits at the head of [s]. [acc] is
    the value read so far and [cnt] the number of digits read. *)
Fixpoint DecimalDigits (s : list ascii) (acc cnt : Z) : Z * Z * list ascii :=
  match s with
  | c :: s' =>
      if is_digit c
      then DecimalDigits s' (10 * acc + digit_value c) (cnt + 1)
      else (acc, cnt, s)
  | [] => (acc, cnt, s)
  end.

(** A StrUnsignedDecimalLiteral: [Infinity], or the digits [m] scaled by
    [10^e]. *)
Inductive literal :=
| LitInfinity
| LitDecimal (m e : Z).

(** ExponentPart, when one is present: [e] or [E], an optional sign, and at
    least one digit. Nothing is consumed otherwise. *)
Definition ExponentPart (s : list ascii) : Z * list ascii :=
  match s with
  | c :: s1 =>
      if Ascii.eqb c "e" || Ascii.eqb c "E"
      then
        let '(neg, s2) :=
          match s1 with
          | d :: t =>
              if Ascii.eqb d "+" then (false, t)
              else if Ascii.eqb d "-" then (true, t)
              else (false, s1)
          | [] => (false, s1)
          end in
        let '(v, cnt, rest) := DecimalDigits s2 0 0 in
        if 0 <? cnt then (if neg then - v else v, rest) else (0, s)
      else (0, s)
  | [] => (0, s)
  end.

(** The longest prefix of [s] that is a StrUnsignedDecimalLiteral, with
    what follows it. *)
Definition StrUnsignedDecimalLiteral (s : list ascii)
  : option (literal * list ascii) :=
  match strip_prefix (chars "Infinity") s with
  | Some rest => Some (LitInfinity, rest)
  | None =>
      let '(i, ni, s1) := DecimalDigits s 0 0 in
      let fraction :=
        match s1 with
        | c :: s2 => if Ascii.eqb c "." then Some s2 else None
        | [] => None
        end in
      match fraction with
      | Some s2 =>
          let '(f, nf, s3) := DecimalDigits s2 i 0 in
          if (0 <? ni) || (0 <? nf)
          then let '(x, rest) := ExponentPart s3 in
               Some (LitDecimal f (x - nf), rest)
          else None
      | None =>
          if 0 <? ni
          then let '(x, rest) := ExponentPart s1 in Some (LitDecimal i x, rest)
          else None
      end
  end.

(** The longest prefix that is a StrDecimalLiteral: an optional sign and a
    StrUnsignedDecimalLiteral. *)
Definition StrDecimalLiteral (s : list ascii)
  : option (bool * literal * list ascii) :=
  let '(neg, s1) :=
    match s with
    | c :: t =>
        if Ascii.eqb c "+" then (false, t)
        else if Ascii.eqb c "-" then (true, t)
        else (false, s)
    | [] => (false, s)
    end in
  match StrUnsignedDecimalLiteral s1 with
  | Some (l, rest) => Some (neg, l, rest)
  | None => None
  end.

(** StringNumericValue of a StrDecimalLiteral, rounded to a Number. *)
Definition literal_value (neg : bool) (l : literal) : number :=
  match l with
  | LitInfinity => S754_infinity neg
  | LitDecimal m e => of_decimal neg m e
  end.

(** The global [parseFloat], applied to a string: white space is skipped,
    the longest prefix that is a StrDecimalLiteral is read, and whatever
    follows it is ignored; NaN when there is no such prefix. *)
Definition parseFloat_string (s : string) : number :=
  match StrDecimalLiteral (trim_start (chars s)) with
  | Some (neg, l, _) => literal_value neg l
  | None => NaN
  end.

(** The digits of a NonDecimalIntegerLiteral in radix [b]. *)
Definition digit_in (b : Z) (c : ascii) : option Z :=
  let n := Z.of_N (N_of_ascii c) in
  let v :=
    if (48 <=? n) && (n <=? 57) then n - 48
    else if (97 <=? n) && (n <=? 102) then n - 87
    else if (65 <=? n) && (n <=? 70) then n - 55
    else b in
  if v <? b then Some v else None.

Fixpoint radix_digits (b : Z) (s : list ascii) (acc : Z) : option Z :=
  match s with
  | [] => Some acc
  | c :: s' =>
      match digit_in b c with
      | Some v => radix_digits b s' (b * acc + v)
      | None => None
      end
  end.

Definition NonDecimalIntegerLiteral (s : list ascii) : option Z :=
  match s with
  | z :: r :: d :: ds =>
      if Ascii.eqb z "0" then
        if Ascii.eqb r "x" || Ascii.eqb r "X" then radix_digits 16 (d :: ds) 0
        else if Ascii.eqb r "o" || Ascii.eqb r "O" then radix_digits 8 (d :: ds) 0
        else if Ascii.eqb r "b" || Ascii.eqb r "B" then radix_digits 2 (d :: ds) 0
        else None
      else None
  | _ => None
  end.

(** StringToNumber: the whole string, white space trimmed at both ends,
    must be a StrNumericLiteral; the empty string is [+0]. *)
Definition StringToNumber (s : string) : number :=
  match trim_end (trim_start (chars s)) with
  | [] => S754_zero false
  | t =>
      match StrDecimalLiteral t with
      | Some (neg, l, []) => literal_value neg l
      | _ =>
          match NonDecimalIntegerLiteral t with
          | Some z => of_Z z
          | None => NaN
          end
      end
  end.

(** *** Number::toString (radix 10)

    For a finite non-zero Number of absolute value [m * 2^e] the digits are
    [s], [k] and [n] with [10^(k-1) <= s < 10^k], [s * 10^(n-k)] rounding to
    the Number, and [k] as small as possible; among several [s] the one
    nearest to the Number is taken. *)

(** [n] with [10^(n-1) <= m * 2^e < 10^n]. Every binary64 value is at least
    [2^(-1074) > 10^(-400)], so scaling by [10^400] gives an integer part with
    as many digits as the scaled value. *)
Definition decimal_exponent (m : positive) (e : Z) : Z :=
  let scaled :=
    if 0 <=? e then Zpos m * 2 ^ e * 10 ^ 400
    else (Zpos m * 10 ^ 400) / 2 ^ (- e) in
  Z.of_nat (String.length (of_Z_abs scaled)) - 400.

(** The candidate with [k] digits, if one rounds to [m * 2^e]: the two
    integers around [m * 2^e / 10^p], for [p = n - k]. *)
Definition candidate (m : positive) (e p : Z) : option Z :=
  let num := Zpos m * (if 0 <=? e then 2 ^ e else 1)
             * (if 0 <=? p then 1 else 10 ^ (- p)) in
  let den := (if 0 <=? e then 1 else 2 ^ (- e))
             * (if 0 <=? p then 10 ^ p else 1) in
  let lo := num / den in
  let hi := lo + 1 in
  let ok s := number_eqb (of_decimal false s p) (S754_finite false m e) in
  match ok lo, ok hi with
  | true, true =>
      match num - lo * den ?= hi * den - num with
      | Lt => Some lo
      | Gt => Some hi
      | Eq => Some (if Z.even lo then lo else hi)
      end
  | true, false => Some lo
  | false, true => Some hi
  | false, false => None
  end.

(** The search for the least [k], from [k] upwards. Seventeen digits
    determine a binary64 value, so the search succeeds within the fuel; past
    it the exact decimal expansion [m * 5^(-e) * 10^e] stands in. *)
Fixpoint shortest (m : positive) (e n k : Z) (fuel : nat) : Z * Z :=
  match fuel with
  | O => if 0 <=? e then (Zpos m * 2 ^ e, 0) else (Zpos m * 5 ^ (- e), e)
  | S fuel' =>
      match candidate m e (n - k) with
      | Some s => (s, n - k)
      | None => shortest m e n (k + 1) fuel'
      end
  end.

(** Trailing zeros of the digits move into the exponent. *)
Fixpoint strip_zeros (fuel : nat) (s p : Z) : Z * Z :=
  match fuel with
  | O => (s, p)
  | S fuel' =>
      if (s mod 10 =? 0) && negb (s =? 0)
      then strip_zeros fuel' (s / 10) (p + 1)
      else (s, p)
  end.

Definition Number_toString (x : number) : string :=
  match x with
  | S754_nan => "NaN"
  | S754_zero _ => "0"
  | S754_infinity neg => if neg then "-Infinity" else "Infinity"
  | S754_finite neg m e =>
      let '(s, p) := shortest m e (decimal_exponent m e) 1 17 in
      let '(s, p) := strip_zeros (String.length (of_Z_abs s)) s p in
      let ds := of_Z_abs s in
      let k := Z.of_nat (String.length ds) in
      let n := p + k in
      let body :=
        if (k <=? n) && (n <=? 21)
        then ds +:+ zeros (Z.to_nat (n - k))
        else if (0 <? n) && (n <=? 21)
        then substring 0 (Z.to_nat n) ds +:+ "."
             +:+ substring (Z.to_nat n) (Z.to_nat (k - n)) ds
        else if (-6 <? n) && (n <=? 0)
        then "0." +:+ zeros (Z.to_nat (- n)) +:+ ds
        else
          let ex := (if n - 1 <? 0 then "-" else "+") +:+ of_Z_abs (n - 1) in
          if k =? 1 then ds +:+ "e" +:+ ex
          else substring 0 1 ds +:+ "."
               +:+ substring 1 (Z.to_nat (k - 1)) ds +:+ "e" +:+ ex in
      (if neg then "-" else "") +:+ body
  end.

(** *** Number.prototype.toFixed

    [toFixed x f] for [0 <= f <= 100] (outside this range the built-in throws
    a RangeError; the pipeline calls it with [f = 1]). The result is a String:
    for a finite [|x| < 10^21] the digits of the integer [n] nearest to
    [|x| * 10^f], the larger one on a tie, with a decimal point before the
    last [f] of them. *)
Definition toFixed (x : number) (f : nat) : string :=
  match x with
  | S754_finite neg m e =>
      let big :=
        if 0 <=? e then 10 ^ 21 <=? Zpos m * 2 ^ e
        else 10 ^ 21 * 2 ^ (- e) <=? Zpos m in
      if big then Number_toString x
      else
        let scale := 10 ^ Z.of_nat f in
        let n :=
          if 0 <=? e then Zpos m * 2 ^ e * scale
          else (2 * Zpos m * scale + 2 ^ (- e)) / 2 ^ (- e + 1) in
        let ds := of_Z_abs n in
        let ds := zeros (S f - String.length ds) +:+ ds in
        let k := String.length ds in
        (if neg then "-" else "")
        +:+ (if f is O then ds
            else substring 0 (k - f) ds +:+ "." +:+ substring (k - f) f ds)
  | S754_zero _ =>
      if f is O then "0" else "0." +:+ zeros f
  | _ => Number_toString x
  end.

End JSConv.

(** ** JavaScript values and ordinary objects *)
Module JS.
Export JSNumber JSString JSConv.

(** The objects every ordinary object reaches through its prototype chain:
    [Object.prototype] itself and its built-in function properties. *)
Inductive builtin :=
| ObjectPrototype
| BuiltinFunction (name : string).

(** The values that occur in the pipeline. *)
Inductive val :=
| VUndefined
| VNumber (x : number)
| VString (s : string)
| VObject (b : builtin).

#[export] Instance val_inhabited : Inhabited val := populate VUndefined.

(** An object literal: its own properties. Its prototype is
    [Object.prototype]. *)
Abbreviation object := (gmap string val).

(** The properties of [Object.prototype]; [__proto__] is its accessor, which
    on an object literal yields [Object.prototype]. *)
Definition Object_prototype : object :=
  list_to_map
    [ ("constructor", VObject (BuiltinFunction "Object"));
      ("hasOwnProperty", VObject (BuiltinFunction "hasOwnProperty"));
      ("isPrototypeOf", VObject (BuiltinFunction "isPrototypeOf"));
      ("propertyIsEnumerable", VObject (BuiltinFunction "propertyIsEnumerable"));
      ("toLocaleString", VObject (BuiltinFunction "toLocaleString"));
      ("toString", VObject (BuiltinFunction "toString"));
      ("valueOf", VObject (BuiltinFunction "valueOf"));
      ("__defineGetter__", VObject (BuiltinFunction "__defineGetter__"));
      ("__defineSetter__", VObject (BuiltinFunction "__defineSetter__"));
      ("__lookupGetter__", VObject (BuiltinFunction "__lookupGetter__"));
      ("__lookupSetter__", VObject (BuiltinFunction "__lookupSetter__"));
      ("__proto__", VObject ObjectPrototype) ].

(** [o[k]]: the own property when there is one, else the property inherited
    from [Object.prototype], else [undefined]. *)
Definition Get (o : object) (k : string) : val :=
  match o !! k with
  | Some v => v
  | None => default VUndefined (Object_prototype !! k)
  end.

(** ToString. A built-in function converts to its source text and
    [Object.prototype] to ["[object Object]"]. *)
Definition ToString (v : val) : string :=
  match v with
  | VUndefined => "undefined"
  | VNumber x => Number_toString x
  | VString s => s
  | VObject ObjectPrototype => "[object Object]"
  | VObject (BuiltinFunction name) =>
      "function " +:+ name +:+ "() { [native code] }"
  end.

(** ToNumber. An object is first converted to a primitive, here its
    string. *)
Definition ToNumber (v : val) : number :=
  match v with
  | VUndefined => NaN
  | VNumber x => x
  | VString s => StringToNumber s
  | VObject _ => StringToNumber (ToString v)
  end.

(** ToBoolean: [undefined], [+0], [-0], [NaN] and the empty string are
    falsy. *)
Definition ToBoolean (v : val) : bool :=
  match v with
  | VUndefined => false
  | VNumber (S754_zero _) | VNumber S754_nan => false
  | VNumber _ => true
  | VString s => negb (String.eqb s "")
  | VObject _ => true
  end.

Definition builtin_eqb (a b : builtin) : bool :=
  match a, b with
  | ObjectPrototype, ObjectPrototype => true
  | BuiltinFunction f, BuiltinFunction g => String.eqb f g
  | _, _ => false
  end.

(** [a === b]. *)
Definition strict_equal (a b : val) : bool :=
  match a, b with
  | VUndefined, VUndefined => true
  | VNumber x, VNumber y => SFeqb x y
  | VString s, VString t => String.eqb s t
  | VObject f, VObject g => builtin_eqb f g
  | _, _ => false
  end.

(** [a || b]. *)
Definition or_else (a b : val) : val := if ToBoolean a then a else b.

(** [v <= c] and [c < v] where [c] is a Number: the other operand is
    converted with ToNumber, and a comparison with NaN is false. *)
Definition le_number (v : val) (c : number) : bool := leb (ToNumber v) c.
Definition lt_number (c : number) (v : val) : bool := ltb c (ToNumber v).

(** The global [parseFloat]. *)
Definition parseFloat (v : val) : number := parseFloat_string (ToString v).

(** A numeric literal of the program text. *)
Definition lit (m e : Z) : number := of_decimal false m e.

End JS.

(** ** data-config.js: class [DataConfig]

    A method is a computation on the instance [this]: it completes normally
    with a result and the updated instance, or abruptly with an exception. *)
Module DataConfig.
Import JS.

(** The object literal built for each kept row. *)
Record firstCountryData := {
  country : val;
  residence : val;
  income : val;
  labour : val
}.

(** The three-element arrays pushed on [secondSort] and on [finalSort]. *)
Abbreviation triple := (val * val * val)%type.

Record t := {
  countryConfig : object;
  incomeConfig : object;
  labourConfig : val -> val;
  firstSort : list firstCountryData;
  secondSort : list triple;
  finalSort : list triple
}.

Definition constructor (countryConfig incomeConfig : object)
    (labourConfig : val -> val) : t :=
  {| countryConfig := countryConfig;
     incomeConfig := incomeConfig;
     labourConfig := labourConfig;
     firstSort := [];
     secondSort := [];
     finalSort := [] |}.

Inductive exn := TypeError.

Inductive completion (A : Type) :=
| Normal (a : A) (this : t)
| Throw (e : exn).
Arguments Normal {A} a this.
Arguments Throw {A} e.

Definition M (A : Type) : Type := t -> completion A.

#[export] Instance M_ret : MRet M := fun A a this => Normal a this.

#[export] Instance M_bind : MBind M := fun A B k m this =>
  match m this with
  | Normal a this' => k a this'
  | Throw e => Throw e
  end.

Definition throw {A} (e : exn) : M A := fun _ => Throw e.

(** Read a field of [this]. *)
Definition gets {A} (f : t -> A) : M A := fun this => Normal (f this) this.

(** [a[i]] followed by a property access: a TypeError when [a[i]] is
    [undefined], that is when [i] is not an index of [a]. *)
Definition index {A} (a : list A) (i : nat) : M A :=
  match a !! i with
  | Some x => mret x
  | None => throw TypeError
  end.

(** Assignments to the three accumulators. *)
Definition set_firstSort (a : list firstCountryData) (this : t) : t :=
  {| countryConfig := countryConfig this;
     incomeConfig := incomeConfig this;
     labourConfig := labourConfig this;
     firstSort := a;
     secondSort := secondSort this;
     finalSort := finalSort this |}.

Definition set_secondSort (a : list triple) (this : t) : t :=
  {| countryConfig := countryConfig this;
     incomeConfig := incomeConfig this;
     labourConfig := labourConfig this;
     firstSort := firstSort this;
     secondSort := a;
     finalSort := finalSort this |}.

Definition set_finalSort (a : list triple) (this : t) : t :=
  {| countryConfig := countryConfig this;
     incomeConfig := incomeConfig this;
     labourConfig := labourConfig this;
     firstSort := firstSort this;
     secondSort := secondSort this;
     finalSort := a |}.

(** [this.firstSort.push(d)], and the same for the other two arrays. *)
Definition push_firstSort (d : firstCountryData) : M unit :=
  fun this => Normal tt (set_firstSort (firstSort this ++ [d]) this).

Definition push_secondSort (d : triple) : M unit :=
  fun this => Normal tt (set_secondSort (secondSort this ++ [d]) this).

Definition push_finalSort (d : triple) : M unit :=
  fun this => Normal tt (set_finalSort (finalSort this ++ [d]) this).

(** [for (let i = i0, n = ...; i < n; i++) body]: [k] is the number of
    iterations left, [n - i]. *)
Fixpoint for_from (i k : nat) (body : nat -> M unit) : M unit :=
  match k with
  | O => mret tt
  | S k' => body i ;; for_from (S i) k' body
  end.

Definition for_loop (n : nat) (body : nat -> M unit) : M unit :=
  for_from 0 n body.

Definition firstParseData (csvData : list object) : M unit :=
  for_loop (length csvData) (fun i =>
    row ← index csvData i;
    if strict_equal (Get row "indicator_name")
         (VString "Labour force participation rate (%) - Female")
       && strict_equal (Get row "dimension") (VString "Place of residence")
    then
      let firstCountryData :=
        {| country := Get row "setting";
           residence := Get row "subgroup";
           income := Get row "wbincome2024";
           labour := VString (toFixed (parseFloat (Get row "estimate")) 1) |} in
      push_firstSort firstCountryData
    else mret tt).

Definition secondParseData : M unit :=
  n ← gets (fun this => length (firstSort this));
  for_loop n (fun i =>
    a ← gets firstSort;
    d ← index a i;
    if negb (strict_equal (income d) VUndefined)
       && negb (strict_equal (income d) (VString ""))
       && (i mod 2 =? 0)%nat
    then
      countryConfig ← gets countryConfig;
      let finalCountry :=
        or_else (Get countryConfig (ToString (country d))) (country d) in
      push_secondSort (finalCountry, income d, labour d)
    else mret tt).

(** The method has no [return]: it completes with [undefined]. *)
Definition finalParseData : M val :=
  n ← gets (fun this => length (secondSort this));
  for_loop n (fun i =>
    a ← gets secondSort;
    d ← index a i;
    incomeConfig ← gets incomeConfig;
    labourConfig ← gets labourConfig;
    let finalIncome := Get incomeConfig (ToString d.1.2) in
    let finalLabour := labourConfig d.2 in
    push_finalSort (d.1.1, finalIncome, finalLabour)) ;;
  mret VUndefined.

Definition parseData (csvData : list object) : M val :=
  firstParseData csvData ;;
  secondParseData ;;
  finalParseData.

End DataConfig.

(** ** main.js: the configuration and the instance *)
Module Main.
Import JS.

Definition countryConfig : object :=
  list_to_map
    [ ("Bolivia (Plurinational State of)", VString "Bolivia");
      ("Bosnia and Herzegovina", VString "Bosnia and Herz.");
      ("Brunei Darussalam", VString "Brunei");
      ("Central African Republic", VString "Central African Rep.");
      ("Democratic People's Republic of Korea", VString "North Korea");
      ("Democratic Republic of the Congo", VString "Dem. Rep. Congo");
      ("Dominican Republic", VString "Dominican Rep.");
      ("Equatorial Guinea", VString "Eq. Guinea");
      ("Iran (Islamic Republic of)", VString "Iran");
      ("Lao People's Democratic Republic", VString "Laos");
      ("Netherlands (Kingdom of the)", VString "Netherlands");
      ("North Macedonia", VString "Macedonia");
      ("occupied Palestinian territory", VString "Palestine");
      ("Republic of Korea", VString "South Korea");
      ("Republic of Moldova", VString "Moldova");
      ("Russian Federation", VString "Russia");
      ("Saint Vincent and the Grenadines", VString "St. Vin. and Gren.");
      ("Sao Tome and Principe", VString "São Tomé and Principe");
      ("Solomon Islands", VString "Solomon Is.");
      ("South Sudan", VString "S. Sudan");
      ("Syrian Arab Republic", VString "Syria");
      ("The United Kingdom", VString "United Kingdom");
      ("Türkiye", VString "Turkey");
      ("United Republic of Tanzania", VString "Tanzania");
      ("Viet Nam", VString "Vietnam") ].

Definition incomeConfig : object :=
  list_to_map
    [ ("Low income", VNumber (lit 0 0));
      ("Lower middle income", VNumber (lit 0 0));
      ("Upper middle income", VNumber (lit 1 0));
      ("High income", VNumber (lit 2 0)) ].

Definition labourConfig (value : val) : val :=
  if le_number value (lit 450 (-1)) then
    VNumber (lit 0 0)
  else if lt_number (lit 450 (-1)) value && le_number value (lit 580 (-1)) then
    VNumber (lit 1 0)
  else
    VNumber (lit 2 0).

Definition dataConfig : DataConfig.t :=
  DataConfig.constructor countryConfig incomeConfig labourConfig.

End Main.

Local Close Scope Z_scope.
Local Close Scope string_scope.

(** ** The pipeline as the specification words it

    Three stages over sequences, each a function of its input alone. *)
Module Spec.
Import JS DataConfig.

#[export] Instance number_eq_dec : EqDecision number.
Proof. solve_decision. Defined.
#[export] Instance builtin_eq_dec : EqDecision builtin.
Proof. solve_decision. Defined.
#[export] Instance val_eq_dec : EqDecision val.
Proof. solve_decision. Defined.

(** Stage 1: the two filter predicates, and the record emitted for a row. *)
Definition passes (row : object) : Prop :=
  Get row "indicator_name"
    = VString "Labour force participation rate (%) - Female"
  ∧ Get row "dimension" = VString "Place of residence".

#[export] Instance passes_dec row : Decision (passes row).
Proof. unfold passes. apply _. Defined.

Definition FilteredRecord (row : object) : firstCountryData :=
  {| country := Get row "setting";
     residence := Get row "subgroup";
     income := Get row "wbincome2024";
     labour := VString (toFixed (parseFloat (Get row "estimate")) 1) |}.

Definition Stage1 (rows : list object) : list firstCountryData :=
  FilteredRecord <$> filter passes rows.

(** Stage 2: the records at an even index whose income label is defined and
    not empty, each with its country name rewritten. *)
Definition valid_income (d : firstCountryData) : Prop :=
  income d ≠ VUndefined ∧ income d ≠ VString "".

#[export] Instance valid_income_dec d : Decision (valid_income d).
Proof. unfold valid_income. apply _. Defined.

Definition kept (p : nat * firstCountryData) : Prop :=
  p.1 mod 2 = 0 ∧ valid_income p.2.

#[export] Instance kept_dec p : Decision (kept p).
Proof. unfold kept. apply _. Defined.

Definition even_valid (a : list firstCountryData) : list firstCountryData :=
  (filter kept (imap pair a)).*2.

Definition remap (countryConfig : object) (c : val) : val :=
  or_else (Get countryConfig (ToString c)) c.

Definition DedupedRecord (countryConfig : object) (d : firstCountryData)
  : triple :=
  (remap countryConfig (country d), income d, labour d).

Definition Stage2 (countryConfig : object) (a : list firstCountryData)
  : list triple :=
  DedupedRecord countryConfig <$> even_valid a.

(** Stage 3: the two tertiles. *)
Definition BucketedRecord (incomeConfig : object) (labourConfig : val -> val)
    (d : triple) : triple :=
  (d.1.1, Get incomeConfig (ToString d.1.2), labourConfig d.2).

Definition Stage3 (incomeConfig : object) (labourConfig : val -> val)
    (a : list triple) : list triple :=
  BucketedRecord incomeConfig labourConfig <$> a.

Definition normalize (countryConfig incomeConfig : object)
    (labourConfig : val -> val) (rows : list object) : list triple :=
  Stage3 incomeConfig labourConfig (Stage2 countryConfig (Stage1 rows)).

End Spec.

(** ** Inputs used in the examples *)
Module Scenario.
Import JS DataConfig.

(** A row as the CSV loader delivers it: an object with one string per
    column. *)
Definition csvRow
    (setting indicator_name dimension subgroup wbincome2024 estimate : string)
  : object :=
  list_to_map
    [ ("setting"%string, VString setting);
      ("indicator_name"%string, VString indicator_name);
      ("dimension"%string, VString dimension);
      ("subgroup"%string, VString subgroup);
      ("wbincome2024"%string, VString wbincome2024);
      ("estimate"%string, VString estimate) ].

Definition urban : object :=
  csvRow "Russian Federation" "Labour force participation rate (%) - Female"
    "Place of residence" "Urban" "Upper middle income" "50.4".

Definition rural : object :=
  csvRow "Russian Federation" "Labour force participation rate (%) - Female"
    "Place of residence" "Rural" "Upper middle income" "50.4".

(** The same row with an estimate that is not a number. *)
Definition unparsable : object :=
  csvRow "Russian Federation" "Labour force participation rate (%) - Female"
    "Place of residence" "Urban" "Upper middle income" "n/a".

(** Rows whose country name, or income label, is the name of a property
    that every object inherits. *)
Definition inherited_country : object :=
  csvRow "constructor" "Labour force participation rate (%) - Female"
    "Place of residence" "Urban" "Upper middle income" "50.4".

Definition inherited_income : object :=
  csvRow "Russian Federation" "Labour force participation rate (%) - Female"
    "Place of residence" "Urban" "constructor" "50.4".

(** The instance of main.js once stage 1 has run on the two rows of the
    scenario. *)
Definition after_stage1 : t :=
  set_firstSort
    [ {| country := VString "Russian Federation";
         residence := VString "Urban";
         income := VString "Upper middle income";
         labour := VString "50.4" |};
      {| country := VString "Russian Federation";
         residence := VString "Rural";
         income := VString "Upper middle income";
         labour := VString "50.4" |} ]
    Main.dataConfig.

(** What an observer reads from the instance after a call. *)
Definition firstSort_after {A} (c : completion A)
  : option (list firstCountryData) :=
  match c with
  | Normal _ this => Some (firstSort this)
  | Throw _ => None
  end.

Definition secondSort_after {A} (c : completion A) : option (list triple) :=
  match c with
  | Normal _ this => Some (secondSort this)
  | Throw _ => None
  end.

Definition finalSort_after {A} (c : completion A) : option (list triple) :=
  match c with
  | Normal _ this => Some (finalSort this)
  | Throw _ => None
  end.

(** [finalSort] after [parseData rows2], called on the instance that a first
    call [parseData rows1] on the fresh instance of main.js leaves behind. *)
Definition second_call (rows1 rows2 : list object) : option (list triple) :=
  match parseData rows1 Main.dataConfig with
  | Normal _ this => finalSort_after (parseData rows2 this)
  | Throw _ => None
  end.

End Scenario.

(** ** States of a [DataConfig] instance

    The states an instance goes through: the one the constructor builds,
    and the one each call of [parseData] leaves. *)
Module Reach.
Import JS DataConfig.

Inductive reachable (countryConfig incomeConfig : object)
    (labourConfig : val -> val) : DataConfig.t -> Prop :=
| reachable_new :
    reachable countryConfig incomeConfig labourConfig
      (constructor countryConfig incomeConfig labourConfig)
| reachable_parseData this csvData r this' :
    reachable countryConfig incomeConfig labourConfig this ->
    parseData csvData this = Normal r this' ->
    reachable countryConfig incomeConfig labourConfig this'.

End Reach.

(** ** legend-render.js: class [LegendRender]

    The instance holds the colour scheme, an array of rows of colours.
    [createLegend] draws the nine squares; of the instance it only reads
    the scheme, and it changes nothing in it. *)
Module LegendRender.

Record t := { colourScheme : list (list string) }.

Definition constructor (colourScheme : list (list string)) : t :=
  {| colourScheme := colourScheme |}.

Inductive completion :=
| Normal
| Throw (e : DataConfig.exn).

(** The outer loop of [createLegend], lines 40 to 49, from [i] for [k] more
    rounds. A round reads [this.colourScheme[i][j]] for [j] from 0 to 2:
    when the scheme has no row [i] the first of these reads is a TypeError;
    a cell that the row does not have reads as [undefined], which [attr]
    takes. *)
Fixpoint rows_from (colourScheme : list (list string)) (i k : nat)
  : completion :=
  match k with
  | O => Normal
  | S k' =>
      match colourScheme !! i with
      | Some _ => rows_from colourScheme (S i) k'
      | None => Throw DataConfig.TypeError
      end
  end.

(** [createLegend(container)], called with a container that is a
    selection: the loop, for [i] from 0 to 2. The calls of [createText]
    draw. *)
Definition createLegend (this : t) : completion :=
  rows_from (colourScheme this) 0 3.

End LegendRender.

(** ** map-render.js: class [MapRender], the part that works on data

    The instance holds the legends, the [DataConfig] instance (the very
    object main.js calls [parseData] on), the two lookup objects, the index
    of the current legend and the two handles on the page, [mapSvg] and
    [legendContainer], which are [null] until [createMap] and [renderAll]
    set them. Of the drawing calls made through the handles, the model
    keeps what the methods depend on: whether a handle is [null], which
    data the path elements of the map carry, and the calls that [attr]
    makes of the fill callbacks. *)
Module MapRender.
Import JS.

Local Open Scope string_scope.

(** The object literal [{income: ..., labour: ...}]. *)
Record entry := { entry_income : val; entry_labour : val }.

(** An object that starts as [{}] and is only assigned entries: its own
    properties, and the entry that an assignment to [__proto__] made its
    prototype, if there was one; its prototype is [Object.prototype]
    otherwise, as is the prototype of every entry. *)
Record table := { own : gmap string entry; proto : option entry }.

Definition empty_table : table := {| own := ∅; proto := None |}.

(** [o[k] = e]. [__proto__] is an accessor of [Object.prototype]: assigning
    an object to it replaces the prototype of [o]. Any other key becomes, or
    stays, an own property. *)
Definition Set_table (o : table) (k : string) (e : entry) : table :=
  if String.eqb k "__proto__"
  then {| own := own o; proto := Some e |}
  else {| own := <[k := e]> (own o); proto := proto o |}.

(** What [o[k]] finds: an entry, or a value that is not one. *)
Inductive found :=
| FEntry (e : entry)
| FVal (v : val).

(** [o[k]]: an own property; else a property of the prototype, when that
    is an entry; else a property of [Object.prototype], whose [__proto__]
    yields the prototype of [o]. *)
Definition Get_table (o : table) (k : string) : found :=
  match own o !! k with
  | Some e => FEntry e
  | None =>
      match proto o with
      | Some e =>
          if String.eqb k "income" then FVal (entry_income e)
          else if String.eqb k "labour" then FVal (entry_labour e)
          else if String.eqb k "__proto__" then FEntry e
          else FVal (default VUndefined (Object_prototype !! k))
      | None => FVal (default VUndefined (Object_prototype !! k))
      end
  end.

(** ToBoolean of what was found; an object is truthy. *)
Definition truthy (f : found) : bool :=
  match f with
  | FEntry _ => true
  | FVal v => ToBoolean v
  end.

(** [onlyData["income"]] and [onlyData["labour"]], for a truthy
    [onlyData]: the field of an entry; [undefined] on any other value,
    since no number, string or built-in object has a property of these
    names. *)
Definition found_income (f : found) : val :=
  match f with
  | FEntry e => entry_income e
  | FVal _ => VUndefined
  end.

Definition found_labour (f : found) : val :=
  match f with
  | FEntry e => entry_labour e
  | FVal _ => VUndefined
  end.

(** The integer a Number is, if it is one. *)
Definition integer_value (x : number) : option Z :=
  match x with
  | S754_zero _ => Some 0%Z
  | S754_finite neg m e =>
      let sign z := if neg then (- z)%Z else z in
      if (0 <=? e)%Z then Some (sign (Zpos m * 2 ^ e)%Z)
      else if (Zpos m mod 2 ^ (- e) =? 0)%Z
           then Some (sign (Zpos m / 2 ^ (- e))%Z)
           else None
  | _ => None
  end.

(** The canonical decimal numeral a String is, if it is one: digits only, no
    leading zero except for ["0"] itself. *)
Definition numeral_value (s : string) : option nat :=
  match chars s with
  | [] => None
  | c :: rest =>
      if Ascii.eqb c "0" && negb (Nat.eqb (length rest) 0) then None
      else
        match DecimalDigits (c :: rest) 0 0 with
        | (v, _, []) => Some (Z.to_nat v)
        | _ => None
        end
  end.

(** The property key a value makes, as far as an array is concerned. A
    Number, [undefined] or a built-in object converts to an index or to a
    name that no array has. A String that is not an index may name a property
    that arrays inherit from the built-in library (["length"], ["map"], ...):
    what it finds is left open. *)
Inductive key :=
| KIndex (i : nat)
| KAbsent
| KEngine.

Definition array_key (v : val) : key :=
  match v with
  | VNumber x =>
      match integer_value x with
      | Some z => if (0 <=? z)%Z then KIndex (Z.to_nat z) else KAbsent
      | None => KAbsent
      end
  | VString s =>
      match numeral_value s with
      | Some i => KIndex i
      | None => KEngine
      end
  | VUndefined | VObject _ => KAbsent
  end.

(** [a[k]] on an array. *)
Inductive element (A : Type) :=
| Elem (x : A)
| Undefined
| EngineProperty.
Arguments Elem {A} x.
Arguments Undefined {A}.
Arguments EngineProperty {A}.

Definition Array_Get {A} (a : list A) (k : val) : element A :=
  match array_key k with
  | KIndex i =>
      match a !! i with
      | Some x => Elem x
      | None => Undefined
      end
  | KAbsent => Undefined
  | KEngine => EngineProperty
  end.

(** The value a fill callback returns: a colour, or what the engine's
    arrays hold under a String key that is not an index. *)
Inductive fill :=
| Colour (c : string)
| EngineDefined.

(** [this.currentIndex]: a small natural number, or NaN after a remainder
    by zero. *)
Inductive index :=
| Index (i : nat)
| IndexNaN.

(** [this.mapSvg] is [null] ([None]) or the svg element that [createMap]
    appended, given by the data of its path elements in document order:
    for each the value of [d.properties.name]. [this.legendContainer] is
    [null] ([None]) or a selection. *)
Record t := {
  colourLegends : list LegendRender.t;
  dataConfig : DataConfig.t;
  countryMapping : table;
  countryTooltip : table;
  mapSvg : option (list val);
  currentIndex : index;
  legendContainer : option unit
}.

Definition constructor (colourLegends : list LegendRender.t)
    (dataConfig : DataConfig.t) : t :=
  {| colourLegends := colourLegends;
     dataConfig := dataConfig;
     countryMapping := empty_table;
     countryTooltip := empty_table;
     mapSvg := None;
     currentIndex := Index 0;
     legendContainer := None |}.

(** A method completes normally, with a result, or abruptly; either way it
    leaves the instance as it is by then. *)
Inductive completion (A : Type) :=
| Normal (a : A) (this : t)
| Throw (e : DataConfig.exn) (this : t).
Arguments Normal {A} a this.
Arguments Throw {A} e this.

Definition M (A : Type) : Type := t -> completion A.

#[global] Instance M_ret : MRet M := fun A a this => Normal a this.

#[global] Instance M_bind : MBind M := fun A B k m this =>
  match m this with
  | Normal a this' => k a this'
  | Throw e this' => Throw e this'
  end.

Definition throw {A} (e : DataConfig.exn) : M A := fun this => Throw e this.

Definition gets {A} (f : t -> A) : M A := fun this => Normal (f this) this.

Definition index_of {A} (a : list A) (i : nat) : M A :=
  match a !! i with
  | Some x => mret x
  | None => throw DataConfig.TypeError
  end.

Definition set_dataConfig (d : DataConfig.t) (this : t) : t :=
  {| colourLegends := colourLegends this;
     dataConfig := d;
     countryMapping := countryMapping this;
     countryTooltip := countryTooltip this;
     mapSvg := mapSvg this;
     currentIndex := currentIndex this;
     legendContainer := legendContainer this |}.

Definition set_countryMapping (o : table) (this : t) : t :=
  {| colourLegends := colourLegends this;
     dataConfig := dataConfig this;
     countryMapping := o;
     countryTooltip := countryTooltip this;
     mapSvg := mapSvg this;
     currentIndex := currentIndex this;
     legendContainer := legendContainer this |}.

Definition set_countryTooltip (o : table) (this : t) : t :=
  {| colourLegends := colourLegends this;
     dataConfig := dataConfig this;
     countryMapping := countryMapping this;
     countryTooltip := o;
     mapSvg := mapSvg this;
     currentIndex := currentIndex this;
     legendContainer := legendContainer this |}.

Definition set_currentIndex (i : index) (this : t) : t :=
  {| colourLegends := colourLegends this;
     dataConfig := dataConfig this;
     countryMapping := countryMapping this;
     countryTooltip := countryTooltip this;
     mapSvg := mapSvg this;
     currentIndex := i;
     legendContainer := legendContainer this |}.

Definition set_mapSvg (svg : option (list val)) (this : t) : t :=
  {| colourLegends := colourLegends this;
     dataConfig := dataConfig this;
     countryMapping := countryMapping this;
     countryTooltip := countryTooltip this;
     mapSvg := svg;
     currentIndex := currentIndex this;
     legendContainer := legendContainer this |}.

Definition set_legendContainer (c : option unit) (this : t) : t :=
  {| colourLegends := colourLegends this;
     dataConfig := dataConfig this;
     countryMapping := countryMapping this;
     countryTooltip := countryTooltip this;
     mapSvg := mapSvg this;
     currentIndex := currentIndex this;
     legendContainer := c |}.

Definition assign_mapSvg (svg : option (list val)) : M unit :=
  fun this => Normal tt (set_mapSvg svg this).

Definition assign_legendContainer (c : option unit) : M unit :=
  fun this => Normal tt (set_legendContainer c this).

Definition assign_currentIndex (i : index) : M unit :=
  fun this => Normal tt (set_currentIndex i this).

(** [this.countryMapping[k] = e] and [this.countryTooltip[k] = e]. *)
Definition assign_countryMapping (k : string) (e : entry) : M unit :=
  fun this =>
    Normal tt (set_countryMapping (Set_table (countryMapping this) k e) this).

Definition assign_countryTooltip (k : string) (e : entry) : M unit :=
  fun this =>
    Normal tt (set_countryTooltip (Set_table (countryTooltip this) k e) this).

Fixpoint for_from (i k : nat) (body : nat -> M unit) : M unit :=
  match k with
  | O => mret tt
  | S k' => body i ;; for_from (S i) k' body
  end.

Definition for_loop (n : nat) (body : nat -> M unit) : M unit :=
  for_from 0 n body.

(** [(i + 1) % n]. *)
Definition next_index (i : index) (n : nat) : index :=
  match i, n with
  | Index i, S _ => Index ((i + 1) mod n)
  | _, _ => IndexNaN
  end.

(** [this.colourLegends[this.currentIndex]] followed by a property access:
    a TypeError when there is no such legend. *)
Definition current_legend : M LegendRender.t :=
  i ← gets currentIndex;
  a ← gets colourLegends;
  match i with
  | Index i => index_of a i
  | IndexNaN => throw DataConfig.TypeError
  end.

(** [v.toString()]: a TypeError on [undefined], which has no properties. *)
Definition call_toString (v : val) : M string :=
  match v with
  | VUndefined => throw DataConfig.TypeError
  | _ => mret (ToString v)
  end.

(** [selection.attr(name, f)] with a function [f]: [d3] calls [f] at once on
    the datum of each selected element, in document order, and sets the
    attribute to what it returns. An exception of [f] ends the call. *)
Fixpoint attr_each {A} (data : list val) (f : val -> M A) : M unit :=
  match data with
  | [] => mret tt
  | d :: data' => f d ;; attr_each data' f
  end.

(** A method call on what a handle holds: a TypeError on [null]. *)
Definition selection_of {A} (handle : option A) : M A :=
  match handle with
  | Some x => mret x
  | None => throw DataConfig.TypeError
  end.

(** [legend.createLegend(container)] with a container that is a
    selection. *)
Definition call_createLegend (legend : LegendRender.t) : M unit :=
  match LegendRender.createLegend legend with
  | LegendRender.Normal => mret tt
  | LegendRender.Throw e => throw e
  end.

Section Methods.

(** [String.prototype.toLowerCase], a built-in: any function on strings. *)
Variable toLowerCase : string -> string.

(** [v.toLowerCase()]: only a String has the method; on any other value the
    call is a TypeError. *)
Definition call_toLowerCase (v : val) : M string :=
  match v with
  | VString s => mret (toLowerCase s)
  | _ => throw DataConfig.TypeError
  end.

(** [#updateColours(d)], with [name] for [d.properties.name]. *)
Definition updateColours (name : val) : M fill :=
  legend ← current_legend;
  let currentColour := LegendRender.colourScheme legend in
  countryName ← call_toLowerCase name;
  countryMapping ← gets countryMapping;
  let onlyData := Get_table countryMapping countryName in
  mret
    (if truthy onlyData then
       match Array_Get currentColour (found_income onlyData) with
       | Elem row =>
           match Array_Get row (found_labour onlyData) with
           | Elem c => if String.eqb c "" then Colour "#dee3e3" else Colour c
           | Undefined => Colour "#dee3e3"
           | EngineProperty => EngineDefined
           end
       | Undefined => Colour "#dee3e3"
       | EngineProperty => EngineDefined
       end
     else Colour "#dee3e3").

(** [createMap(jsonData)]. [jsonData] is given by the data that the path
    elements of lines 104 to 106 are created with, one per feature that
    line 86 finds, on a page that has the element [#map]: for each the
    value of [d.properties.name].

    Line 76 sets [mapSvg] to the new svg element, which has no path yet;
    lines 89 to 92 fill [countryMapping] from [finalSort]; lines 104 to
    106 append the paths and bind their data; line 111 has [attr] call
    [#updateColours] on each. The other calls draw, or register the
    handlers that call [#updateTooltip] later. *)
Definition createMap (jsonData : list val) : M unit :=
  assign_mapSvg (Some []) ;;
  n ← gets (fun this => length (DataConfig.finalSort (dataConfig this)));
  for_loop n (fun i =>
    a ← gets (fun this => DataConfig.finalSort (dataConfig this));
    finalCountryData ← index_of a i;
    k ← call_toLowerCase finalCountryData.1.1;
    assign_countryMapping k
      {| entry_income := finalCountryData.1.2;
         entry_labour := finalCountryData.2 |}) ;;
  assign_mapSvg (Some jsonData) ;;
  attr_each jsonData updateColours.

(** [renderAll(jsonData)]: [createMap]; line 38 appends the group to
    [mapSvg] and keeps it in [legendContainer]; line 39 calls
    [createLegend] on the current legend. *)
Definition renderAll (jsonData : list val) : M unit :=
  createMap jsonData ;;
  svg ← gets mapSvg;
  selection_of svg ;;
  assign_legendContainer (Some tt) ;;
  legend ← current_legend;
  call_createLegend legend.

(** [cycleLegends]: line 48 empties [legendContainer]; line 50 moves the
    index to the next legend; line 51 calls [createLegend] on that legend;
    line 54 reads its scheme; lines 55 to 64 have [attr] call the fill
    callback on the datum of each path of [mapSvg]. The result here is that
    callback, a computation on the instance as [d3] calls it. *)
Definition cycleLegends : M (val -> M fill) :=
  container ← gets legendContainer;
  selection_of container ;;
  i ← gets currentIndex;
  n ← gets (fun this => length (colourLegends this));
  assign_currentIndex (next_index i n) ;;
  legend ← current_legend;
  call_createLegend legend ;;
  legend ← current_legend;
  let currentColour := LegendRender.colourScheme legend in
  let callback := fun name =>
    countryName ← call_toLowerCase name;
    countryMapping ← gets countryMapping;
    let onlyData := Get_table countryMapping countryName in
    mret
      (if truthy onlyData then
         match Array_Get currentColour (found_income onlyData) with
         | Elem row =>
             match Array_Get row (found_labour onlyData) with
             | Elem c => if String.eqb c "" then Colour "#dee3e3" else Colour c
             | Undefined => Colour "#dee3e3"
             | EngineProperty => EngineDefined
             end
         | Undefined => Colour "#dee3e3"
         | EngineProperty => EngineDefined
         end
       else Colour "#dee3e3") in
  svg ← gets mapSvg;
  paths ← selection_of svg;
  attr_each paths callback ;;
  mret callback.

(** [#updateTooltip(d, tooltip)], with [name] for [d.properties.name]: the
    result is the text given to [tooltip.html], if the tooltip is shown. *)
Definition updateTooltip (name : val) : M (option string) :=
  n ← gets (fun this => length (DataConfig.secondSort (dataConfig this)));
  for_loop n (fun i =>
    a ← gets (fun this => DataConfig.secondSort (dataConfig this));
    secondCountryData ← index_of a i;
    k ← call_toLowerCase secondCountryData.1.1;
    assign_countryTooltip k
      {| entry_income := secondCountryData.1.2;
         entry_labour := secondCountryData.2 |}) ;;
  countryName ← call_toLowerCase name;
  countryTooltip ← gets countryTooltip;
  let onlyData := Get_table countryTooltip countryName in
  if truthy onlyData then
    shown ← call_toString name;
    labour ← call_toString (found_labour onlyData);
    mret (Some (shown +:+ "<br>" +:+ "Income: "
                +:+ ToString (found_income onlyData) +:+ "<br>"
                +:+ "Labour: " +:+ labour +:+ "%"))
  else mret None.

(** [dataConfig.parseData(csvData)], called on the instance that
    [mapRender] holds. *)
Definition dataConfig_parseData (csvData : list object) : M val :=
  fun this =>
    match DataConfig.parseData csvData (dataConfig this) with
    | DataConfig.Normal r d => Normal r (set_dataConfig d this)
    | DataConfig.Throw e => Throw e this
    end.

End Methods.

(** Lower case of the letters A to Z, every other byte unchanged: what
    [toLowerCase] does on a string of ASCII characters. *)
Definition ascii_toLowerCase (s : string) : string :=
  string_of_list_ascii
    (map (fun c =>
            let n := N_of_ascii c in
            if ((65 <=? n) && (n <=? 90))%N then ascii_of_N (n + 32) else c)
       (list_ascii_of_string s)).

End MapRender.

(** ** main.js: the colour schemes and the two renderers *)
Module MainRender.
Import JS.

Local Open Scope string_scope.

Definition BuRdColourScheme : list (list string) :=
  [ ["#c1b1c4"; "#e39db2"; "#d1607e"];
    ["#9ed0de"; "#a1819b"; "#a65061"];
    ["#64acbe"; "#627f8c"; "#785664"] ].

Definition PuBuColourScheme : list (list string) :=
  [ ["#c1c6db"; "#ace4e4"; "#5ac8c8"];
    ["#dfb0d6"; "#a5add3"; "#5698b9"];
    ["#be64ac"; "#8c62aa"; "#3b4994"] ].

Definition PuYeColourScheme : list (list string) :=
  [ ["#c7bcb5"; "#e4d9ac"; "#c8b35a"];
    ["#cbb8d7"; "#c8ada0"; "#af8e53"];
    ["#9972af"; "#976b82"; "#804d36"] ].

Definition BuRdRender : LegendRender.t :=
  LegendRender.constructor BuRdColourScheme.
Definition PuBuRender : LegendRender.t :=
  LegendRender.constructor PuBuColourScheme.
Definition PuYeRender : LegendRender.t :=
  LegendRender.constructor PuYeColourScheme.

Definition colourLegends : list LegendRender.t :=
  [BuRdRender; PuBuRender; PuYeRender].

Definition mapRender : MapRender.t :=
  MapRender.constructor colourLegends Main.dataConfig.

(** The callback run once the data is loaded, lines 113 to 119:
    [parseData] on the rows of the file, then [renderAll] on the map
    data. *)
Definition loaded (toLowerCase : string -> string) (csvData : list object)
    (jsonData : list val) : MapRender.M unit :=
  MapRender.dataConfig_parseData csvData ;;
  MapRender.renderAll toLowerCase jsonData.

End MainRender.

(** ** What the two lookup objects are filled with *)
Module RenderSpec.
Import JS MapRender.

Local Open Scope string_scope.

(** The entry made from a record of [secondSort] or of [finalSort]. *)
Definition entry_of (d : DataConfig.triple) : entry :=
  {| entry_income := d.1.2; entry_labour := d.2 |}.

Definition is_string (v : val) : bool :=
  match v with
  | VString _ => true
  | _ => false
  end.

(** The records whose country is a String, up to the first whose country
    is not: the key and the entry of each. *)
Fixpoint keyed (toLowerCase : string -> string) (a : list DataConfig.triple)
  : list (string * entry) :=
  match a with
  | d :: a' =>
      match d.1.1 with
      | VString s => (toLowerCase s, entry_of d) :: keyed toLowerCase a'
      | _ => []
      end
  | [] => []
  end.

(** Every record has a String for a country. *)
Definition all_strings (a : list DataConfig.triple) : bool :=
  forallb (fun d => is_string d.1.1) a.

(** The assignments [o[k] = e], one after the other. *)
Definition assign_all (kes : list (string * entry)) (o : table) : table :=
  foldl (fun o ke => Set_table o ke.1 ke.2) o kes.

(** The instance a computation leaves. *)
Definition state_of {A} (c : completion A) : t :=
  match c with
  | Normal _ this => this
  | Throw _ this => this
  end.

(** [cycleLegends] called [k] times: [k] clicks on the map. *)
Fixpoint clicks (toLowerCase : string -> string) (k : nat) : M unit :=
  match k with
  | O => mret tt
  | S k' => cycleLegends toLowerCase ;; clicks toLowerCase k'
  end.

(** The instance has a current legend: [colourLegends[currentIndex]] is
    not [undefined]. *)
Definition has_legend (this : t) : bool :=
  match current_legend this with
  | Normal _ _ => true
  | Throw _ _ => false
  end.

(** [#updateColours] completes on each of the data: there is a current
    legend and each name is a String. *)
Definition paints (this : t) (data : list val) : bool :=
  forallb (fun d => has_legend this && is_string d) data.

(** [createLegend] completes on every legend. *)
Definition drawable (legends : list LegendRender.t) : Prop :=
  Forall (fun legend => LegendRender.createLegend legend = LegendRender.Normal)
    legends.

(** What the fill callbacks return, lines 146 to 150 and 59 to 63, once
    [currentColour] and [onlyData] are known. *)
Definition fill_of (currentColour : list (list string)) (onlyData : found)
  : fill :=
  if truthy onlyData then
    match Array_Get currentColour (found_income onlyData) with
    | Elem row =>
        match Array_Get row (found_labour onlyData) with
        | Elem c => if String.eqb c "" then Colour "#dee3e3" else Colour c
        | Undefined => Colour "#dee3e3"
        | EngineProperty => EngineDefined
        end
    | Undefined => Colour "#dee3e3"
    | EngineProperty => EngineDefined
    end
  else Colour "#dee3e3".

(** The fill callback of [cycleLegends], lines 56 to 64, for a scheme. *)
Definition fill_callback (toLowerCase : string -> string)
    (currentColour : list (list string)) (name : val) : M fill :=
  countryName ← call_toLowerCase toLowerCase name;
  countryMapping ← gets countryMapping;
  mret (fill_of currentColour (Get_table countryMapping countryName)).

(** [updateTooltip] after its loop, lines 166 to 179: the text for the
    country under the cursor. *)
Definition tooltip_html (toLowerCase : string -> string) (name : val)
  : M (option string) :=
  countryName ← call_toLowerCase toLowerCase name;
  countryTooltip ← gets countryTooltip;
  let onlyData := Get_table countryTooltip countryName in
  if truthy onlyData then
    shown ← call_toString name;
    labour ← call_toString (found_labour onlyData);
    mret (Some (shown +:+ "<br>" +:+ "Income: "
                +:+ ToString (found_income onlyData) +:+ "<br>"
                +:+ "Labour: " +:+ labour +:+ "%"))
  else mret None.

(** A cell of one of the palettes. *)
Definition palette_colour (legends : list LegendRender.t) (c : string) : Prop :=
  ∃ legend row,
    legend ∈ legends ∧ row ∈ LegendRender.colourScheme legend ∧ c ∈ row.

(** The entry of [countryMapping] that stage 3 makes of the entry of
    [countryTooltip]. *)
Definition bucketed (incomeConfig : object) (labourConfig : val -> val)
    (e : entry) : entry :=
  {| entry_income := Get incomeConfig (ToString (entry_income e));
     entry_labour := labourConfig (entry_labour e) |}.

End RenderSpec.

(** ** More inputs used in the examples *)
Module Examples.
Import JS DataConfig.

Local Open Scope string_scope.

(** A row of another indicator, and a row whose file has no [dimension]
    column. *)
Definition other_indicator : object :=
  Scenario.csvRow "Russian Federation" "Life expectancy at birth"
    "Place of residence" "Urban" "Upper middle income" "71.3".

Definition no_dimension : object :=
  list_to_map
    [ ("setting", VString "Russian Federation");
      ("indicator_name",
       VString "Labour force participation rate (%) - Female");
      ("subgroup", VString "Urban");
      ("wbincome2024", VString "Upper middle income");
      ("estimate", VString "50.4") ].

(** A kept row whose file has no [setting] column. *)
Definition no_setting : object :=
  list_to_map
    [ ("indicator_name",
       VString "Labour force participation rate (%) - Female");
      ("dimension", VString "Place of residence");
      ("subgroup", VString "Urban");
      ("wbincome2024", VString "Upper middle income");
      ("estimate", VString "50.4") ].

(** The instance of main.js after one call on the two rows of the
    scenario. *)
Definition after_scenario : DataConfig.t :=
  {| countryConfig := Main.countryConfig;
     incomeConfig := Main.incomeConfig;
     labourConfig := Main.labourConfig;
     firstSort := firstSort Scenario.after_stage1;
     secondSort :=
       [(VString "Russia", VString "Upper middle income", VString "50.4")];
     finalSort :=
       [(VString "Russia", VNumber (lit 1 0), VNumber (lit 1 0))] |}.

End Examples.

(** ** Instances of [MapRender] for the examples *)
Module RenderExamples.
Import JS MapRender RenderSpec.

Local Open Scope string_scope.

Definition russia : entry :=
  {| entry_income := VNumber (lit 1 0); entry_labour := VNumber (lit 1 0) |}.

(** Map data with three countries. *)
Definition three_countries : list val :=
  [VString "France"; VString "Russia"; VString "Constructor"].

(** Map data in which one feature has no name. *)
Definition nameless_country : list val :=
  [VString "France"; VUndefined; VString "Russia"].

(** [mapRender] once the two rows of the scenario and the three countries
    are loaded. *)
Definition loaded_scenario : MapRender.t :=
  {| colourLegends := MainRender.colourLegends;
     dataConfig := Examples.after_scenario;
     countryMapping := Set_table empty_table "russia" russia;
     countryTooltip := empty_table;
     mapSvg := Some three_countries;
     currentIndex := Index 0;
     legendContainer := Some tt |}.

(** The same after one click. *)
Definition clicked_scenario : MapRender.t :=
  set_currentIndex (Index 1) loaded_scenario.

(** An instance whose data names one country in two spellings. *)
Definition two_spellings : MapRender.t :=
  MapRender.constructor MainRender.colourLegends
    (DataConfig.set_finalSort
       [ (VString "RUSSIA", VNumber (lit 0 0), VNumber (lit 0 0));
         (VString "Russia", VNumber (lit 1 0), VNumber (lit 1 0)) ]
       Main.dataConfig).

(** An instance whose second record has no country. *)
Definition no_country : MapRender.t :=
  MapRender.constructor MainRender.colourLegends
    (DataConfig.set_finalSort
       [ (VString "Russia", VNumber (lit 1 0), VNumber (lit 1 0));
         (VUndefined, VNumber (lit 1 0), VNumber (lit 1 0)) ]
       Main.dataConfig).

(** An instance without legends, as the constructor leaves it, and as it
    is once [renderAll] has been called on a map without countries. *)
Definition no_legends : MapRender.t := MapRender.constructor [] Main.dataConfig.

Definition no_legends_rendered : MapRender.t :=
  set_legendContainer (Some tt) (set_mapSvg (Some []) no_legends).

(** An instance whose only legend has two rows. *)
Definition two_rows : MapRender.t :=
  MapRender.constructor
    [LegendRender.constructor [["#c1b1c4"; "#e39db2"]; ["#9ed0de"; "#a1819b"]]]
    Main.dataConfig.

End RenderExamples.

(** ** The methods compute the three stages *)
Module Refinement.
Import JS DataConfig Spec.

#[local] Arguments Nat.modulo : simpl never.

Lemma strict_equal_VString v s : strict_equal v (VString s) = true ↔ v = VString s.
Proof.
  destruct v as [|x|t|b]; simpl; try (split; [discriminate | discriminate]).
  rewrite String.eqb_eq. split; [intros -> | intros [= ->]]; reflexivity.
Qed.

Lemma strict_equal_VUndefined v : strict_equal v VUndefined = true ↔ v = VUndefined.
Proof. destruct v; simpl; split; (reflexivity || discriminate). Qed.

Lemma passes_test row :
  strict_equal (Get row "indicator_name")
    (VString "Labour force participation rate (%) - Female")
  && strict_equal (Get row "dimension") (VString "Place of residence")
  = bool_decide (passes row).
Proof.
  apply eq_true_iff_eq.
  rewrite andb_true_iff, !strict_equal_VString, bool_decide_eq_true.
  reflexivity.
Qed.

Lemma kept_test i d :
  negb (strict_equal (income d) VUndefined)
  && negb (strict_equal (income d) (VString ""))
  && (i mod 2 =? 0)%nat
  = bool_decide (kept (i, d)).
Proof.
  apply eq_true_iff_eq.
  rewrite !andb_true_iff, !negb_true_iff, <- !not_true_iff_false.
  rewrite strict_equal_VString, strict_equal_VUndefined.
  rewrite Nat.eqb_eq, bool_decide_eq_true.
  unfold kept, valid_income. simpl. tauto.
Qed.

(** The invariant rule for the [for] loops. *)
Lemma for_from_invariant (I : nat → t → Prop) (body : nat → M unit) :
  ∀ k i this,
    (∀ j s, i ≤ j < i + k → I j s →
            ∃ s', body j s = Normal tt s' ∧ I (S j) s') →
    I i this →
    ∃ this', for_from i k body this = Normal tt this' ∧ I (i + k) this'.
Proof.
  induction k as [|k IH]; intros i this Hbody Hi.
  - exists this. rewrite Nat.add_0_r. split; [reflexivity | assumption].
  - destruct (Hbody i this) as (s' & Hs' & HI'); [lia | assumption |].
    destruct (IH (S i) s') as (this' & Hrun & Hend).
    + intros j s Hj. apply Hbody. lia.
    + assumption.
    + exists this'. split.
      * simpl. unfold mbind, M_bind at 1. rewrite Hs'. exact Hrun.
      * replace (i + S k) with (S i + k) by lia. assumption.
Qed.

Lemma for_loop_invariant (I : nat → t → Prop) (body : nat → M unit) n this :
  (∀ j s, j < n → I j s → ∃ s', body j s = Normal tt s' ∧ I (S j) s') →
  I 0 this →
  ∃ this', for_loop n body this = Normal tt this' ∧ I n this'.
Proof.
  intros Hbody H0.
  apply (for_from_invariant I body n 0 this); [|assumption].
  intros j s [_ Hj]. apply Hbody. exact Hj.
Qed.

Ltac loop_invariant I :=
  match goal with
  | |- context [for_loop ?n ?b ?s] =>
      let this' := fresh "this'" in
      let Hrun := fresh "Hrun" in
      let Hend := fresh "Hend" in
      destruct (for_loop_invariant I b n s) as (this' & Hrun & Hend);
      [ | | rewrite Hrun, Hend ]
  end.

Lemma set_firstSort_id this : set_firstSort (firstSort this) this = this.
Proof. destruct this; reflexivity. Qed.

Lemma set_secondSort_id this : set_secondSort (secondSort this) this = this.
Proof. destruct this; reflexivity. Qed.

Lemma set_finalSort_id this : set_finalSort (finalSort this) this = this.
Proof. destruct this; reflexivity. Qed.

Lemma Stage1_snoc rows row :
  Stage1 (rows ++ [row])
  = Stage1 rows ++ (if bool_decide (passes row) then [FilteredRecord row] else []).
Proof.
  unfold Stage1. rewrite filter_app, fmap_app. f_equal.
  rewrite filter_cons, filter_nil.
  case_bool_decide; case_decide; tauto || reflexivity.
Qed.

Lemma even_valid_snoc a d :
  even_valid (a ++ [d])
  = even_valid a ++ (if bool_decide (kept (length a, d)) then [d] else []).
Proof.
  unfold even_valid. rewrite imap_app, filter_app, fmap_app. f_equal.
  simpl. rewrite Nat.add_0_r, filter_cons, filter_nil.
  case_bool_decide; case_decide; tauto || reflexivity.
Qed.

(** [firstParseData] appends the records of stage 1 to [firstSort]. *)
Lemma firstParseData_spec csvData this :
  firstParseData csvData this
  = Normal tt (set_firstSort (firstSort this ++ Stage1 csvData) this).
Proof.
  unfold firstParseData.
  loop_invariant
    (λ i s, s = set_firstSort (firstSort this ++ Stage1 (take i csvData)) this).
  - intros j s Hj ->.
    destruct (lookup_lt_is_Some_2 csvData j Hj) as [row Hrow].
    unfold mbind, M_bind, index. rewrite Hrow. simpl.
    rewrite passes_test, (take_S_r _ _ _ Hrow), Stage1_snoc.
    case_bool_decide; eexists; (split; [reflexivity|]).
    + unfold set_firstSort. simpl. rewrite app_assoc. reflexivity.
    + rewrite app_nil_r. reflexivity.
  - simpl. rewrite app_nil_r, set_firstSort_id. reflexivity.
  - rewrite firstn_all. reflexivity.
Qed.

(** [secondParseData] appends the records of stage 2, computed from the
    whole of [firstSort], to [secondSort]. *)
Lemma secondParseData_spec this :
  secondParseData this
  = Normal tt
      (set_secondSort
         (secondSort this ++ Stage2 (countryConfig this) (firstSort this))
         this).
Proof.
  unfold secondParseData, mbind, M_bind at 1. simpl.
  loop_invariant
    (λ i s, s = set_secondSort
                  (secondSort this
                   ++ Stage2 (countryConfig this) (take i (firstSort this)))
                  this).
  - intros j s Hj ->.
    destruct (lookup_lt_is_Some_2 (firstSort this) j Hj) as [d Hd].
    unfold mbind, M_bind, gets, index. simpl. rewrite Hd. simpl.
    rewrite kept_test, (take_S_r _ _ _ Hd).
    unfold Stage2. rewrite even_valid_snoc, fmap_app, length_take_le by lia.
    case_bool_decide; eexists; (split; [reflexivity|]).
    + unfold set_secondSort. simpl. rewrite app_assoc. reflexivity.
    + simpl. rewrite app_nil_r. reflexivity.
  - simpl. rewrite app_nil_r, set_secondSort_id. reflexivity.
  - rewrite firstn_all. reflexivity.
Qed.

(** [finalParseData] appends the records of stage 3, computed from the
    whole of [secondSort], to [finalSort], and returns [undefined]. *)
Lemma finalParseData_spec this :
  finalParseData this
  = Normal VUndefined
      (set_finalSort
         (finalSort this
          ++ Stage3 (incomeConfig this) (labourConfig this) (secondSort this))
         this).
Proof.
  unfold finalParseData, mbind, M_bind at 1 2. simpl.
  loop_invariant
    (λ i s, s = set_finalSort
                  (finalSort this
                   ++ Stage3 (incomeConfig this) (labourConfig this)
                        (take i (secondSort this)))
                  this).
  - intros j s Hj ->.
    destruct (lookup_lt_is_Some_2 (secondSort this) j Hj) as [d Hd].
    unfold mbind, M_bind, gets, index. simpl. rewrite Hd. simpl.
    rewrite (take_S_r _ _ _ Hd). unfold Stage3. rewrite fmap_app.
    eexists; split; [reflexivity|].
    unfold set_finalSort. simpl. rewrite app_assoc. reflexivity.
  - simpl. rewrite app_nil_r, set_finalSort_id. reflexivity.
  - rewrite firstn_all. reflexivity.
Qed.

(** One call of [parseData], from any state of the instance. *)
Lemma parseData_spec csvData this :
  let a1 := firstSort this ++ Stage1 csvData in
  let a2 := secondSort this ++ Stage2 (countryConfig this) a1 in
  let a3 := finalSort this
            ++ Stage3 (incomeConfig this) (labourConfig this) a2 in
  parseData csvData this
  = Normal VUndefined
      {| countryConfig := countryConfig this;
         incomeConfig := incomeConfig this;
         labourConfig := labourConfig this;
         firstSort := a1;
         secondSort := a2;
         finalSort := a3 |}.
Proof.
  unfold parseData, mbind, M_bind.
  rewrite firstParseData_spec, secondParseData_spec, finalParseData_spec.
  reflexivity.
Qed.

End Refinement.

(** ** Facts about the stages *)
Module Facts.
Import JS DataConfig Spec.

(** [ceil ((n + 1) / 2)] from [ceil (n / 2)]. *)
Lemma half_up_succ n :
  (S n + 1) / 2 = (n + 1) / 2 + (if decide (n mod 2 = 0) then 1 else 0).
Proof.
  pose proof (Nat.div_mod_eq n 2).
  pose proof (Nat.div_mod_eq (n + 1) 2).
  pose proof (Nat.div_mod_eq (S n + 1) 2).
  pose proof (Nat.mod_upper_bound n 2).
  pose proof (Nat.mod_upper_bound (n + 1) 2).
  pose proof (Nat.mod_upper_bound (S n + 1) 2).
  case_decide; lia.
Qed.

Lemma imap_pair_snd {A} (a : list A) : (imap pair a).*2 = a.
Proof.
  apply list_eq. intros i.
  rewrite list_lookup_fmap, list_lookup_imap.
  destruct (a !! i); reflexivity.
Qed.

(** Stage 2 keeps the order of the stage-1 records. *)
Lemma even_valid_sublist a : even_valid a `sublist_of` a.
Proof.
  unfold even_valid. rewrite <- (imap_pair_snd a) at 2.
  apply fmap_sublist, sublist_filter.
Qed.

Lemma elem_of_even_valid a d :
  d ∈ even_valid a ↔ ∃ i, a !! i = Some d ∧ i mod 2 = 0 ∧ valid_income d.
Proof.
  unfold even_valid. rewrite list_elem_of_fmap. split.
  - intros ([i d'] & -> & Hin). apply list_elem_of_filter in Hin as [[Hi Hv] Hin].
    apply list_elem_of_lookup in Hin as [j Hj].
    rewrite list_lookup_imap in Hj.
    destruct (a !! j) as [x|] eqn:Hx; [|discriminate].
    injection Hj as <- <-. exists j. auto.
  - intros (i & Hi & Heven & Hv). exists (i, d). split; [reflexivity|].
    apply list_elem_of_filter. split; [split; assumption|].
    apply list_elem_of_lookup. exists i.
    rewrite list_lookup_imap, Hi. reflexivity.
Qed.

Lemma even_valid_snoc_valid a d :
  valid_income d →
  even_valid (a ++ [d])
  = even_valid a ++ (if decide (length a mod 2 = 0) then [d] else []).
Proof.
  intros Hd. rewrite Refinement.even_valid_snoc.
  case_bool_decide as Hk; case_decide as He; try reflexivity;
    unfold kept in Hk; simpl in Hk; tauto.
Qed.

(** When every income label is valid, the kept records are those at the
    indices 0, 2, 4, ..., and there are [ceil (n / 2)] of them. *)
Lemma even_valid_all_valid a :
  Forall valid_income a →
  length (even_valid a) = (length a + 1) / 2
  ∧ ∀ j, even_valid a !! j = a !! (2 * j).
Proof.
  induction a as [|d a IH] using rev_ind; intros Hall.
  - split; [reflexivity|]. intros j. reflexivity.
  - apply Forall_app in Hall as [Ha Hd]. rewrite Forall_singleton in Hd.
    destruct (IH Ha) as [Hlen Hlook].
    rewrite (even_valid_snoc_valid _ _ Hd).
    assert (Hn : length (a ++ [d]) = S (length a))
      by (rewrite length_app; simpl; lia).
    rewrite Hn, half_up_succ.
    pose proof (Nat.div_mod_eq (length a) 2).
    pose proof (Nat.div_mod_eq (length a + 1) 2).
    pose proof (Nat.mod_upper_bound (length a) 2).
    pose proof (Nat.mod_upper_bound (length a + 1) 2).
    case_decide as He.
    + split; [rewrite length_app, Hlen; change (length [d]) with 1; lia|].
      intros j. destruct (decide (j < length (even_valid a))) as [Hj|Hj].
      * rewrite !lookup_app_l by lia. apply Hlook.
      * rewrite lookup_app_r by lia.
        destruct (decide (j = length (even_valid a))) as [->|Hne].
        -- rewrite Nat.sub_diag.
           rewrite lookup_app_r by lia.
           replace (2 * length (even_valid a) - length a) with 0 by lia.
           reflexivity.
        -- rewrite lookup_ge_None_2 by (change (length [d]) with 1; lia).
           symmetry. apply lookup_ge_None_2. lia.
    + split; [rewrite app_nil_r, Hlen; lia|].
      intros j. rewrite app_nil_r, Hlook.
      destruct (decide (2 * j < length a)) as [Hj|Hj].
      * rewrite lookup_app_l by lia. reflexivity.
      * rewrite !lookup_ge_None_2; [reflexivity | lia | lia].
Qed.

(** *** Comparisons of Numbers *)

Lemma SFcompare_antisym x y :
  SFcompare x y = CompOpp <$> SFcompare y x.
Proof.
  destruct x as [[]|[]| |[] m e], y as [[]|[]| |[] n f];
    simpl; try reflexivity;
    rewrite (Z.compare_antisym e f);
    destruct (e ?= f)%Z; simpl; try reflexivity;
    rewrite (Pos.compare_cont_antisym n m Eq); reflexivity.
Qed.

(** [y < x] excludes [x <= y]. *)
Lemma ltb_leb_false x y : ltb y x = true → leb x y = false.
Proof.
  unfold ltb, leb, SFltb, SFleb.
  rewrite (SFcompare_antisym x y).
  destruct (SFcompare y x) as [[]|]; simpl; congruence.
Qed.

Lemma lit_45 : lit 450 (-1) = S754_finite false 6333186975989760 (-47).
Proof. vm_compute. reflexivity. Qed.

Lemma lit_58 : lit 580 (-1) = S754_finite false 8162774324609024 (-47).
Proof. vm_compute. reflexivity. Qed.

(** [58.0 < x] excludes [x <= 45.0]. *)
Lemma above_58_above_45 x :
  ltb (lit 580 (-1)) x = true → leb x (lit 450 (-1)) = false.
Proof.
  rewrite lit_45, lit_58. unfold ltb, leb, SFltb, SFleb.
  destruct x as [[]|[]| |[] m e]; cbv [SFcompare]; try congruence.
  destruct (Z.compare_spec (-47) e) as [<-|Hlt|Hgt].
  - rewrite !Pos.compare_cont_spec, Z.compare_refl. cbv [Pos.switch_Eq].
    destruct (Pos.compare_spec 8162774324609024 m) as [?|Hm|?];
      try discriminate.
    intros _.
    assert (Hgt : (6333186975989760 < m)%positive)
      by (apply (Pos.lt_trans _ 8162774324609024); [reflexivity | exact Hm]).
    apply Pos.lt_gt in Hgt. unfold Pos.gt in Hgt. rewrite Hgt. reflexivity.
  - intros _. apply Z.lt_gt in Hlt. unfold Z.gt in Hlt. rewrite Hlt.
    reflexivity.
  - discriminate.
Qed.

(** The three branches of [labourConfig]. *)
Lemma labourConfig_cases v :
  Main.labourConfig v = VNumber (lit 0 0)
  ∨ Main.labourConfig v = VNumber (lit 1 0)
  ∨ Main.labourConfig v = VNumber (lit 2 0).
Proof.
  unfold Main.labourConfig.
  destruct (le_number v (lit 450 (-1))); [auto|].
  destruct (lt_number (lit 450 (-1)) v && le_number v (lit 580 (-1))); auto.
Qed.

(** *** Property lookup in the two tables *)

Lemma Get_own (o : object) k v : o !! k = Some v → Get o k = v.
Proof. unfold Get. intros ->. reflexivity. Qed.

Lemma Get_absent (o : object) k :
  o !! k = None → Object_prototype !! k = None → Get o k = VUndefined.
Proof. unfold Get. intros -> ->. reflexivity. Qed.

Lemma Get_inherited (o : object) k v :
  o !! k = None → Object_prototype !! k = Some v → Get o k = v.
Proof. unfold Get. intros -> ->. reflexivity. Qed.

(** Case analysis on the entries of a table given as a literal. *)
Ltac each_entry H tac :=
  apply elem_of_list_to_map_2, list_elem_of_In in H; simpl in H;
  repeat (destruct H as [H|H]; [injection H as <- <-; tac|]);
  contradiction.

(** Every property of [Object.prototype] is an object. *)
Lemma Object_prototype_objects k v :
  Object_prototype !! k = Some v → ∃ b, v = VObject b.
Proof. intros H. each_entry H ltac:(eexists; reflexivity). Qed.

(** A property that is not an own property is never a Number. *)
Lemma Get_not_own_not_number (o : object) k x :
  o !! k = None → Get o k ≠ VNumber x.
Proof.
  unfold Get. intros ->.
  destruct (Object_prototype !! k) as [v|] eqn:Hk; simpl; [|discriminate].
  destruct (Object_prototype_objects k v Hk) as [b ->]. discriminate.
Qed.

(** The keys of [incomeConfig] are the four income labels. *)
Lemma incomeConfig_not_key label :
  label ≠ "Low income"%string → label ≠ "Lower middle income"%string →
  label ≠ "Upper middle income"%string → label ≠ "High income"%string →
  Main.incomeConfig !! label = None.
Proof.
  intros H1 H2 H3 H4. unfold Main.incomeConfig. cbn [list_to_map foldr fst snd].
  rewrite !lookup_insert_ne by congruence. apply lookup_empty.
Qed.

(** Every value of [countryConfig] is a non-empty string, which the remap
    leaves unchanged. *)
Lemma countryConfig_targets s v :
  Main.countryConfig !! s = Some v →
  ToBoolean v = true ∧ remap Main.countryConfig v = v.
Proof.
  intros H. each_entry H ltac:(split; vm_compute; reflexivity).
Qed.

Lemma remap_key s v :
  Main.countryConfig !! s = Some v → remap Main.countryConfig (VString s) = v.
Proof.
  intros H. unfold remap, or_else. cbn [ToString]. rewrite (Get_own _ _ _ H).
  destruct (countryConfig_targets s v H) as [-> _]. reflexivity.
Qed.

Lemma remap_not_key s :
  Main.countryConfig !! s = None → Object_prototype !! s = None →
  remap Main.countryConfig (VString s) = VString s.
Proof.
  intros H Hp. unfold remap, or_else. cbn [ToString].
  rewrite (Get_absent _ _ H Hp). reflexivity.
Qed.

(** A label that is not a key of [incomeConfig] never gets a Number, hence
    never tertile 0; it gets [undefined] unless it names an inherited
    property. *)
Lemma income_of_unknown_label label :
  Main.incomeConfig !! label = None →
  (∀ x, Get Main.incomeConfig label ≠ VNumber x)
  ∧ (Object_prototype !! label = None →
     Get Main.incomeConfig label = VUndefined).
Proof.
  intros H. split.
  - intros x. apply Get_not_own_not_number, H.
  - apply Get_absent, H.
Qed.

(** Every record of stage 1 holds its labour rate as a String. *)
Lemma labour_of_Stage1 rows d :
  d ∈ Stage1 rows → ∃ s, labour d = VString s.
Proof.
  intros Hd. apply list_elem_of_fmap in Hd as (row & -> & _).
  eexists. reflexivity.
Qed.

(** One call of [parseData] on a fresh instance. *)
Lemma parseData_fresh countryConfig incomeConfig labourConfig csvData :
  parseData csvData (constructor countryConfig incomeConfig labourConfig)
  = Normal VUndefined
      {| DataConfig.countryConfig := countryConfig;
         DataConfig.incomeConfig := incomeConfig;
         DataConfig.labourConfig := labourConfig;
         firstSort := Stage1 csvData;
         secondSort := Stage2 countryConfig (Stage1 csvData);
         finalSort := normalize countryConfig incomeConfig labourConfig csvData |}.
Proof. rewrite Refinement.parseData_spec. reflexivity. Qed.

End Facts.

(** ** The claims *)
Import JS DataConfig Spec Refinement Facts.

(** C1. On the fresh instance of main.js, the two Russian Federation rows of
    the end-to-end scenario give two stage-1 records, one stage-2 record, the
    one made from the record at index 0, with country "Russia", and
    [finalSort] holds the single record ("Russia", 1, 1). [parseData] itself
    returns [undefined]; the output is read from [finalSort]. *)
Theorem C1_end_to_end_scenario :
  ∃ this' r0 r1,
    parseData [Scenario.urban; Scenario.rural] Main.dataConfig
      = Normal VUndefined this'
    ∧ firstSort this' = [r0; r1]
    ∧ residence r0 = VString "Urban" ∧ residence r1 = VString "Rural"
    ∧ secondSort this' = [DedupedRecord Main.countryConfig r0]
    ∧ secondSort this'
      = [(VString "Russia", VString "Upper middle income", VString "50.4")]
    ∧ finalSort this' = [(VString "Russia", VNumber (lit 1 0), VNumber (lit 1 0))].
Proof.
  rewrite parseData_spec.
  exists (set_finalSort
            (Stage3 Main.incomeConfig Main.labourConfig
               (Stage2 Main.countryConfig
                  (Stage1 [Scenario.urban; Scenario.rural])))
            (set_secondSort
               (Stage2 Main.countryConfig
                  (Stage1 [Scenario.urban; Scenario.rural]))
               (set_firstSort (Stage1 [Scenario.urban; Scenario.rural])
                  Main.dataConfig))),
    (FilteredRecord Scenario.urban), (FilteredRecord Scenario.rural).
  split; [reflexivity|].
  cbn [firstSort secondSort finalSort set_firstSort set_secondSort set_finalSort].
  repeat split; vm_compute; reflexivity.
Qed.

(** C5. From any state of the instance and for any rows, [firstParseData]
    appends to [firstSort] no more records than there are rows; every
    appended record is made from a row whose indicator name is "Labour force
    participation rate (%) - Female" and whose dimension is "Place of
    residence"; and the appended records are those of the kept rows, in the
    order of the rows. It completes, [firstSort] ends with what it held
    followed by these records, and the other two arrays are as they
    were. *)
Theorem C5_stage1_filters_in_order (csvData : list object) (this : t) :
  ∃ emitted,
    firstParseData csvData this
      = Normal tt (set_firstSort (firstSort this ++ emitted) this)
    ∧ length emitted ≤ length csvData
    ∧ (∀ d, d ∈ emitted →
         ∃ row, row ∈ csvData
           ∧ Get row "indicator_name"
               = VString "Labour force participation rate (%) - Female"
           ∧ Get row "dimension" = VString "Place of residence"
           ∧ d = FilteredRecord row)
    ∧ emitted = FilteredRecord <$> filter passes csvData
    ∧ filter passes csvData `sublist_of` csvData
    ∧ ∃ this',
        firstParseData csvData this = Normal tt this'
        ∧ firstSort this' = firstSort this ++ emitted
        ∧ secondSort this' = secondSort this
        ∧ finalSort this' = finalSort this.
Proof.
  exists (Stage1 csvData). split; [apply firstParseData_spec|].
  unfold Stage1. split; [|split; [|split; [|split]]].
  - rewrite length_fmap. apply length_filter.
  - intros d Hd. apply list_elem_of_fmap in Hd as (row & -> & Hrow).
    apply list_elem_of_filter in Hrow as [[Hind Hdim] Hin].
    exists row. auto.
  - reflexivity.
  - apply sublist_filter.
  - eexists. split; [apply firstParseData_spec|]. repeat split.
Qed.

Lemma C5_witness :
  ∃ row, row ∈ [Scenario.urban; Scenario.rural]
    ∧ Get row "indicator_name"
        = VString "Labour force participation rate (%) - Female"
    ∧ Get row "dimension" = VString "Place of residence"
    ∧ FilteredRecord Scenario.urban = FilteredRecord row.
Proof.
  destruct (C5_stage1_filters_in_order [Scenario.urban; Scenario.rural]
              Main.dataConfig) as (emitted & _ & _ & Hfrom & -> & _).
  apply Hfrom.
  rewrite filter_cons_True by (split; vm_compute; reflexivity).
  simpl. left.
Defined.

(** C3. From any state of the instance, [secondParseData] completes and
    appends to [secondSort] exactly the stage-1 records whose index in
    [firstSort] is even and whose income label is defined and not empty, in
    the same order and each with its country rewritten; it changes nothing
    else. When every income label is valid it appends [ceil (n / 2)]
    records, the j-th made from the record at index [2 * j]. *)
Theorem C3_stage2_even_valid (this : t) :
  let a := firstSort this in
  ∃ this' selected,
    secondParseData this = Normal tt this'
    ∧ this'
      = set_secondSort
          (secondSort this
           ++ (DedupedRecord (countryConfig this) <$> selected))
          this
    ∧ secondSort this'
      = secondSort this ++ (DedupedRecord (countryConfig this) <$> selected)
    ∧ firstSort this' = firstSort this
    ∧ finalSort this' = finalSort this
    ∧ selected = even_valid a
    ∧ selected `sublist_of` a
    ∧ (∀ d, d ∈ selected ↔
         ∃ i, a !! i = Some d ∧ i mod 2 = 0
              ∧ income d ≠ VUndefined ∧ income d ≠ VString "")
    ∧ (Forall valid_income a →
         length (secondSort this') = length (secondSort this) + (length a + 1) / 2
         ∧ length (DedupedRecord (countryConfig this) <$> selected)
           = (length a + 1) / 2
         ∧ ∀ j, selected !! j = a !! (2 * j)).
Proof.
  intros a. eexists. exists (even_valid a).
  split; [apply secondParseData_spec|].
  split; [reflexivity|].
  split; [reflexivity|].
  split; [reflexivity|].
  split; [reflexivity|].
  split; [reflexivity|].
  split; [apply even_valid_sublist|].
  split; [apply elem_of_even_valid|].
  intros Hall. cbn [secondSort set_secondSort].
  unfold Stage2. rewrite length_app, !length_fmap.
  destruct (even_valid_all_valid a Hall) as [Hlen Hlook]. fold a.
  rewrite Hlen. split; [reflexivity|]. split; [reflexivity | exact Hlook].
Qed.

Lemma C3_witness :
  ∃ this',
    secondParseData Scenario.after_stage1 = Normal tt this'
    ∧ secondSort this'
      = [(VString "Russia", VString "Upper middle income", VString "50.4")]
    ∧ length (secondSort this') = 1
    ∧ firstSort this' = firstSort Scenario.after_stage1.
Proof.
  destruct (C3_stage2_even_valid Scenario.after_stage1)
    as (this' & selected & Hrun & _ & Hsecond & Hfirst & _ & Hsel & _ & _
        & Hall).
  exists this'. split; [exact Hrun|].
  destruct Hall as (Hlen & _ & _); [repeat constructor; simpl; discriminate|].
  split; [|split; [exact Hlen | exact Hfirst]].
  rewrite Hsecond, Hsel. vm_compute. reflexivity.
Defined.

(** C4. On a Number [x], [labourConfig] gives 0 when [x <= 45.0], 1 when
    [45.0 < x <= 58.0] and 2 when [58.0 < x]; the two bounds belong to the
    lower bucket: 45.0 gives 0, 45.1 gives 1, 58.0 gives 1 and 58.1
    gives 2. *)
Theorem C4_labour_tertile_thresholds (x : number) :
  (leb x (lit 450 (-1)) = true →
     Main.labourConfig (VNumber x) = VNumber (lit 0 0))
  ∧ (ltb (lit 450 (-1)) x = true → leb x (lit 580 (-1)) = true →
     Main.labourConfig (VNumber x) = VNumber (lit 1 0))
  ∧ (ltb (lit 580 (-1)) x = true →
     Main.labourConfig (VNumber x) = VNumber (lit 2 0))
  ∧ Main.labourConfig (VNumber (lit 450 (-1))) = VNumber (lit 0 0)
  ∧ Main.labourConfig (VNumber (lit 451 (-1))) = VNumber (lit 1 0)
  ∧ Main.labourConfig (VNumber (lit 580 (-1))) = VNumber (lit 1 0)
  ∧ Main.labourConfig (VNumber (lit 581 (-1))) = VNumber (lit 2 0).
Proof.
  unfold Main.labourConfig, le_number, lt_number, ToNumber.
  split; [intros ->; reflexivity|].
  split.
  { intros Hlt Hle. rewrite (ltb_leb_false _ _ Hlt), Hlt, Hle. reflexivity. }
  split.
  { intros Hlt.
    rewrite (above_58_above_45 _ Hlt), (ltb_leb_false _ _ Hlt), andb_false_r.
    reflexivity. }
  repeat split; vm_compute; reflexivity.
Qed.

Lemma C4_witness :
  Main.labourConfig (VNumber (lit 400 (-1))) = VNumber (lit 0 0)
  ∧ Main.labourConfig (VNumber (lit 500 (-1))) = VNumber (lit 1 0)
  ∧ Main.labourConfig (VNumber (lit 600 (-1))) = VNumber (lit 2 0).
Proof.
  split; [|split].
  - destruct (C4_labour_tertile_thresholds (lit 400 (-1))) as (H & _).
    apply H. vm_compute. reflexivity.
  - destruct (C4_labour_tertile_thresholds (lit 500 (-1))) as (_ & H & _).
    apply H; vm_compute; reflexivity.
  - destruct (C4_labour_tertile_thresholds (lit 600 (-1))) as (_ & _ & H & _).
    apply H. vm_compute. reflexivity.
Defined.

(** C10. [labourConfig] returns 0, 1 or 2 on every value and each of the
    three is returned for some value; whenever both guards are false it
    returns 2, in particular on NaN, on the string "NaN" that stage 1 stores
    after a failed parse, and on [undefined]. Every record that
    [finalParseData] pushes therefore carries one of the three numbers. *)
Theorem C10_labour_tertile_total (v : val) :
  (Main.labourConfig v = VNumber (lit 0 0)
   ∨ Main.labourConfig v = VNumber (lit 1 0)
   ∨ Main.labourConfig v = VNumber (lit 2 0))
  ∧ Main.labourConfig v ≠ VUndefined
  ∧ (le_number v (lit 450 (-1)) = false →
     lt_number (lit 450 (-1)) v && le_number v (lit 580 (-1)) = false →
     Main.labourConfig v = VNumber (lit 2 0))
  ∧ Main.labourConfig (VNumber NaN) = VNumber (lit 2 0)
  ∧ Main.labourConfig (VString (toFixed NaN 1)) = VNumber (lit 2 0)
  ∧ Main.labourConfig VUndefined = VNumber (lit 2 0)
  ∧ Main.labourConfig (VNumber (lit 0 0)) = VNumber (lit 0 0)
  ∧ Main.labourConfig (VNumber (lit 50 0)) = VNumber (lit 1 0)
  ∧ Main.labourConfig (VNumber (lit 100 0)) = VNumber (lit 2 0)
  ∧ (∀ incomeConfig a d,
       d ∈ Stage3 incomeConfig Main.labourConfig a →
       d.2 = VNumber (lit 0 0) ∨ d.2 = VNumber (lit 1 0)
       ∨ d.2 = VNumber (lit 2 0)).
Proof.
  split; [apply labourConfig_cases|].
  split; [destruct (labourConfig_cases v) as [->|[->| ->]]; discriminate|].
  split; [unfold Main.labourConfig; intros -> ->; reflexivity|].
  do 6 (split; [vm_compute; reflexivity|]).
  intros incomeConfig a d Hd.
  apply list_elem_of_fmap in Hd as (d0 & -> & _). apply labourConfig_cases.
Qed.

Lemma C10_witness :
  Main.labourConfig (VString "not a number") = VNumber (lit 2 0).
Proof.
  destruct (C10_labour_tertile_total (VString "not a number"))
    as (_ & _ & H & _).
  apply H; vm_compute; reflexivity.
Defined.

(** A row with an unparsable estimate is kept by stage 1, and on the fresh
    instance of main.js it reaches [finalSort] with labour tertile 2. *)
Lemma C2_counterexample :
  passes Scenario.unparsable
  ∧ parseFloat (Get Scenario.unparsable "estimate") = NaN
  ∧ Scenario.secondSort_after (parseData [Scenario.unparsable] Main.dataConfig)
    = Some [(VString "Russia", VString "Upper middle income", VString "NaN")]
  ∧ Scenario.finalSort_after (parseData [Scenario.unparsable] Main.dataConfig)
    = Some [(VString "Russia", VNumber (lit 1 0), VNumber (lit 2 0))].
Proof.
  split; [split; vm_compute; reflexivity|].
  repeat split; vm_compute; reflexivity.
Qed.

(** C2, as the code has it. A row that passes the two stage-1 predicates and
    whose estimate does not parse is not excluded: on the fresh instance of
    main.js, if it is the i-th kept row then [firstSort] holds its record at
    index [i], with labour the string "NaN"; and if moreover [i] is even and
    its income label is defined and not empty, [finalSort] holds its record,
    with labour tertile 2. *)
Theorem C2_unparsable_estimate_flows_through
    (csvData : list object) (i : nat) (row : object) :
  filter passes csvData !! i = Some row →
  parseFloat (Get row "estimate") = NaN →
  ∃ this',
    parseData csvData Main.dataConfig = Normal VUndefined this'
    ∧ firstSort this' !! i = Some (FilteredRecord row)
    ∧ labour (FilteredRecord row) = VString "NaN"
    ∧ (i mod 2 = 0 → valid_income (FilteredRecord row) →
       (remap Main.countryConfig (Get row "setting"),
        Get Main.incomeConfig (ToString (Get row "wbincome2024")),
        VNumber (lit 2 0)) ∈ finalSort this').
Proof.
  intros Hrow Hnan. unfold Main.dataConfig. rewrite parseData_fresh.
  eexists. split; [reflexivity|]. cbn [firstSort finalSort].
  assert (Hfirst : Stage1 csvData !! i = Some (FilteredRecord row)).
  { unfold Stage1. rewrite list_lookup_fmap, Hrow. reflexivity. }
  assert (Hlabour : labour (FilteredRecord row) = VString "NaN").
  { unfold FilteredRecord. cbn [labour]. rewrite Hnan. reflexivity. }
  split; [exact Hfirst|]. split; [exact Hlabour|].
  intros Heven Hvalid. unfold normalize, Stage3, Stage2.
  apply list_elem_of_fmap.
  exists (DedupedRecord Main.countryConfig (FilteredRecord row)). split.
  - unfold BucketedRecord, DedupedRecord. cbn [fst snd]. rewrite Hlabour.
    replace (Main.labourConfig (VString "NaN")) with (VNumber (lit 2 0))
      by (vm_compute; reflexivity).
    reflexivity.
  - apply list_elem_of_fmap_2, elem_of_even_valid. exists i. auto.
Qed.

Lemma C2_witness :
  ∃ this',
    parseData [Scenario.unparsable] Main.dataConfig = Normal VUndefined this'
    ∧ firstSort this' !! 0 = Some (FilteredRecord Scenario.unparsable)
    ∧ labour (FilteredRecord Scenario.unparsable) = VString "NaN"
    ∧ (0 mod 2 = 0 → valid_income (FilteredRecord Scenario.unparsable) →
       (remap Main.countryConfig (Get Scenario.unparsable "setting"),
        Get Main.incomeConfig
          (ToString (Get Scenario.unparsable "wbincome2024")),
        VNumber (lit 2 0))
       ∈ finalSort this').
Proof.
  apply (C2_unparsable_estimate_flows_through [Scenario.unparsable] 0).
  - rewrite filter_cons_True by (split; vm_compute; reflexivity).
    reflexivity.
  - vm_compute. reflexivity.
Defined.

(** With the same second input, the output of a second call depends on the
    input of the first: after the two rows of the scenario a call on no rows
    at all leaves three records in [finalSort], after a first call on no
    rows it leaves none. *)
Lemma C7_counterexample :
  Scenario.second_call [Scenario.urban; Scenario.rural] []
    = Some [(VString "Russia", VNumber (lit 1 0), VNumber (lit 1 0));
            (VString "Russia", VNumber (lit 1 0), VNumber (lit 1 0));
            (VString "Russia", VNumber (lit 1 0), VNumber (lit 1 0))]
  ∧ Scenario.second_call [] [] = Some [].
Proof. split; vm_compute; reflexivity. Qed.

(** C7, as the code has it. On a fresh instance the output of [parseData]
    is a function of its input alone. The three arrays are created by the
    constructor only and never reset, so a second call on the same instance
    is not independent of the first: it appends to what the first call left,
    and the outputs of the first call stay as a prefix of the second's. *)
Theorem C7_second_call_appends
    (countryConfig incomeConfig : object) (labourConfig : val → val)
    (rows1 rows2 : list object) :
  ∃ this1 this2,
    parseData rows1 (constructor countryConfig incomeConfig labourConfig)
      = Normal VUndefined this1
    ∧ finalSort this1 = normalize countryConfig incomeConfig labourConfig rows1
    ∧ parseData rows2 this1 = Normal VUndefined this2
    ∧ firstSort this2 = Stage1 rows1 ++ Stage1 rows2
    ∧ secondSort this1 `prefix_of` secondSort this2
    ∧ finalSort this1 `prefix_of` finalSort this2.
Proof.
  rewrite parseData_fresh. eexists _, _.
  split; [reflexivity|]. split; [reflexivity|].
  rewrite parseData_spec. split; [reflexivity|].
  cbn [firstSort secondSort finalSort].
  split; [reflexivity|].
  split; apply prefix_app_r; reflexivity.
Qed.

(** C8. Stage 1 stores the labour rate as a String, the result of
    [toFixed], not as a Number: for the urban row of the scenario the record
    holds the string "50.4", whose numeric value is the Number 50.4. *)
Theorem C8_labour_rate_is_a_string :
  Scenario.firstSort_after (firstParseData [Scenario.urban] Main.dataConfig)
    = Some [ {| country := VString "Russian Federation";
                residence := VString "Urban";
                income := VString "Upper middle income";
                labour := VString "50.4" |} ]
  ∧ strict_equal (VString "50.4") (VNumber (lit 504 (-1))) = false
  ∧ ToNumber (VString "50.4") = lit 504 (-1).
Proof. repeat split; vm_compute; reflexivity. Qed.

(** C9. "constructor" is not a key of [countryConfig], yet the remap does
    not return it unchanged: the lookup finds the property that the table
    inherits from [Object.prototype], and the country of the stage-2 record
    is that built-in function. *)
Theorem C9_remap_of_inherited_name :
  Main.countryConfig !! "constructor"%string = None
  ∧ remap Main.countryConfig (VString "constructor")
    = VObject (BuiltinFunction "Object")
  ∧ Scenario.secondSort_after
      (parseData [Scenario.inherited_country] Main.dataConfig)
    = Some [(VObject (BuiltinFunction "Object"),
             VString "Upper middle income", VString "50.4")].
Proof. repeat split; vm_compute; reflexivity. Qed.

(** C6. "constructor" is not one of the four keys of [incomeConfig], yet
    the income tertile of its record is not [undefined]: it is the built-in
    function that the table inherits from [Object.prototype]. *)
Theorem C6_income_of_inherited_label :
  Main.incomeConfig !! "constructor"%string = None
  ∧ Get Main.incomeConfig "constructor" = VObject (BuiltinFunction "Object")
  ∧ Scenario.finalSort_after
      (parseData [Scenario.inherited_income] Main.dataConfig)
    = Some [(VString "Russia", VObject (BuiltinFunction "Object"),
             VNumber (lit 1 0))].
Proof. repeat split; vm_compute; reflexivity. Qed.


(** ** Further properties of [DataConfig] *)
Module DataConfigFacts.
Import JS DataConfig Spec Refinement Facts.

#[local] Arguments Nat.modulo : simpl never.
#[local] Arguments Nat.div : simpl never.

Lemma Stage1_app rows1 rows2 : Stage1 (rows1 ++ rows2) = Stage1 rows1 ++ Stage1 rows2.
Proof. unfold Stage1. rewrite filter_app, fmap_app. reflexivity. Qed.

Lemma Stage1_skip rows1 row rows2 :
  ¬ passes row → Stage1 (rows1 ++ row :: rows2) = Stage1 (rows1 ++ rows2).
Proof.
  intros H. rewrite !Stage1_app. f_equal.
  unfold Stage1. rewrite filter_cons_False by exact H. reflexivity.
Qed.

(** A row without the column [k] has [undefined] there. *)
Lemma Get_missing_column (row : object) k :
  row !! k = None → Object_prototype !! k = None → Get row k = VUndefined.
Proof. apply Get_absent. Qed.

Lemma length_even_valid a : length (even_valid a) ≤ (length a + 1) / 2.
Proof.
  induction a as [|d a IH] using rev_ind; [simpl; lia|].
  rewrite even_valid_snoc, !length_app.
  change (length [d]) with 1.
  replace (length a + 1 + 1) with (S (length a) + 1) by lia.
  rewrite half_up_succ.
  case_bool_decide as Hk; case_decide as He; cbn [length]; try lia.
  destruct Hk as [Hk _]. exfalso. exact (He Hk).
Qed.

(** The index parity of the records is all that [kept] sees of the index. *)
Lemma filter_kept_imap_parity (f g : nat → nat) (a : list firstCountryData) :
  (∀ i, f i mod 2 = g i mod 2) →
  (filter kept (imap (λ i d, (f i, d)) a)).*2
  = (filter kept (imap (λ i d, (g i, d)) a)).*2.
Proof.
  revert f g. induction a as [|d a IH]; intros f g Hfg; [reflexivity|].
  rewrite !imap_cons, !filter_cons.
  assert (Hk : kept (f 0, d) ↔ kept (g 0, d)).
  { unfold kept. simpl. rewrite (Hfg 0). reflexivity. }
  assert (Htl : (filter kept (imap ((λ i d, (f i, d)) ∘ S) a)).*2
                = (filter kept (imap ((λ i d, (g i, d)) ∘ S) a)).*2).
  { apply (IH (f ∘ S) (g ∘ S)). intros i. apply Hfg. }
  do 2 case_decide; try tauto; rewrite ?fmap_cons, Htl; reflexivity.
Qed.

(** Stage 2 goes through [firstSort] pair by pair. *)
Lemma even_valid_pair d1 d2 a :
  even_valid (d1 :: d2 :: a)
  = (if decide (valid_income d1) then [d1] else []) ++ even_valid a.
Proof.
  unfold even_valid. rewrite !imap_cons, !filter_cons.
  assert (H1 : ¬ kept (1, d2)) by (intros [H _]; vm_compute in H; discriminate).
  assert (H0 : kept (0, d1) ↔ valid_income d1).
  { unfold kept. cbn [fst snd]. split; [intros [_ H]; exact H|].
    intros H. split; [reflexivity | exact H]. }
  assert (Htl : (filter kept (imap ((pair ∘ S) ∘ S) a)).*2
                = (filter kept (imap pair a)).*2).
  { apply (filter_kept_imap_parity (λ i, S (S i)) (λ i, i)).
    intros i. replace (S (S i)) with (i + 1 * 2) by lia.
    apply Nat.Div0.mod_add. }
  do 3 case_decide; try tauto; rewrite ?fmap_cons, Htl; reflexivity.
Qed.

End DataConfigFacts.

(** ** The order of Numbers *)
Module OrderFacts.
Import JS Facts.

Lemma compare_cont_Eq m n : Pos.compare_cont Eq m n = (m ?= n)%positive.
Proof. reflexivity. Qed.

Ltac order_cases :=
  repeat match goal with
  | |- context [Pos.compare_cont Eq ?a ?b] => rewrite (compare_cont_Eq a b)
  | |- context [(?a ?= ?b)%Z] =>
      destruct (Z.compare_spec a b); try subst
  | |- context [(?a ?= ?b)%positive] =>
      destruct (Pos.compare_spec a b); try subst
  end.

Lemma leb_trans x y z : leb x y = true → leb y z = true → leb x z = true.
Proof.
  unfold leb, SFleb.
  destruct x as [[]|[]| |[] m1 e1], y as [[]|[]| |[] m2 e2],
    z as [[]|[]| |[] m3 e3];
    cbv [SFcompare]; try (intros; reflexivity); try (intros; discriminate);
    rewrite ?compare_cont_Eq.
  all: order_cases; cbv [CompOpp]; try (intros; reflexivity);
    try (intros; discriminate); intros; exfalso; lia.
Qed.

Lemma not_leb_ltb x y s m e :
  leb x y = true → leb x (S754_finite s m e) = false →
  ltb (S754_finite s m e) x = true.
Proof.
  unfold ltb, leb, SFltb, SFleb. intros Hxy.
  rewrite (SFcompare_antisym (S754_finite s m e) x).
  destruct (SFcompare x (S754_finite s m e)) as [[]|] eqn:E;
    simpl; try discriminate; try reflexivity.
  destruct x as [[]|[]| |[] m1 e1], s; try discriminate E.
  all: destruct y; discriminate Hxy.
Qed.

End OrderFacts.

(** ** The methods of [MapRender] *)
Module MapRenderFacts.
Import JS MapRender RenderSpec.

Lemma set_countryMapping_same this :
  set_countryMapping (countryMapping this) this = this.
Proof. destruct this; reflexivity. Qed.

Lemma set_countryTooltip_same this :
  set_countryTooltip (countryTooltip this) this = this.
Proof. destruct this; reflexivity. Qed.

Lemma table_eq o1 o2 : own o1 = own o2 → proto o1 = proto o2 → o1 = o2.
Proof. destruct o1, o2; cbn; intros -> ->; reflexivity. Qed.

Lemma assign_all_app kes1 kes2 o :
  assign_all (kes1 ++ kes2) o = assign_all kes2 (assign_all kes1 o).
Proof. apply foldl_app. Qed.

Lemma assign_all_cons k e kes o :
  assign_all ((k, e) :: kes) o = assign_all kes (Set_table o k e).
Proof. reflexivity. Qed.

(** What the assignments leave under a key: the entry they assign to it
    last, else what was there. *)
Lemma own_assign_all kes : ∀ o k,
  own (assign_all kes o) !! k
  = match own (assign_all kes empty_table) !! k with
    | Some e => Some e
    | None => own o !! k
    end.
Proof.
  induction kes as [|[k' e'] kes IH]; intros o k; [reflexivity|].
  rewrite !assign_all_cons, (IH (Set_table o k' e')),
    (IH (Set_table empty_table k' e')).
  destruct (own (assign_all kes empty_table) !! k); [reflexivity|].
  unfold Set_table. destruct (String.eqb k' "__proto__"); cbn [own empty_table].
  - rewrite lookup_empty. reflexivity.
  - destruct (decide (k' = k)) as [->|Hne].
    + rewrite !lookup_insert_eq. reflexivity.
    + rewrite !lookup_insert_ne, lookup_empty by exact Hne. reflexivity.
Qed.

Lemma proto_assign_all kes : ∀ o,
  proto (assign_all kes o)
  = match proto (assign_all kes empty_table) with
    | Some e => Some e
    | None => proto o
    end.
Proof.
  induction kes as [|[k' e'] kes IH]; intros o; [reflexivity|].
  rewrite !assign_all_cons, (IH (Set_table o k' e')),
    (IH (Set_table empty_table k' e')).
  destruct (proto (assign_all kes empty_table)); [reflexivity|].
  unfold Set_table. destruct (String.eqb k' "__proto__"); reflexivity.
Qed.

(** Assigning the same entries again changes nothing. *)
Lemma assign_all_again kes o :
  assign_all kes (assign_all kes o) = assign_all kes o.
Proof.
  apply table_eq.
  - apply map_eq. intros k.
    rewrite own_assign_all, (own_assign_all kes o).
    destruct (own (assign_all kes empty_table) !! k); reflexivity.
  - rewrite proto_assign_all, (proto_assign_all kes o).
    destruct (proto (assign_all kes empty_table)); reflexivity.
Qed.

Lemma own_assign_all_other kes : ∀ o k,
  k ∉ kes.*1 → own (assign_all kes o) !! k = own o !! k.
Proof.
  induction kes as [|[k' e'] kes IH]; intros o k Hk; [reflexivity|].
  rewrite fmap_cons, not_elem_of_cons in Hk. destruct Hk as [Hne Hk].
  rewrite assign_all_cons, (IH _ _ Hk).
  unfold Set_table. destruct (String.eqb k' "__proto__"); cbn [own fst];
    [reflexivity|].
  cbn [fst] in Hne. rewrite lookup_insert_ne by congruence. reflexivity.
Qed.

Lemma proto_assign_all_other kes : ∀ o,
  "__proto__"%string ∉ kes.*1 → proto (assign_all kes o) = proto o.
Proof.
  induction kes as [|[k' e'] kes IH]; intros o Hk; [reflexivity|].
  rewrite fmap_cons, not_elem_of_cons in Hk. destruct Hk as [Hne Hk].
  rewrite assign_all_cons, (IH _ Hk). cbn [fst] in Hne.
  unfold Set_table. destruct (String.eqb_spec k' "__proto__"); [congruence|].
  reflexivity.
Qed.

(** The last assignment to a key is the one that stays. *)
Lemma own_assign_all_last pre k e post o :
  k ≠ "__proto__"%string → k ∉ post.*1 →
  own (assign_all (pre ++ (k, e) :: post) o) !! k = Some e.
Proof.
  intros Hp Hk. rewrite assign_all_app, assign_all_cons.
  rewrite (own_assign_all_other _ _ _ Hk).
  unfold Set_table. destruct (String.eqb_spec k "__proto__"); [congruence|].
  cbn [own]. apply lookup_insert_eq.
Qed.

Section Methods.
Variable toLowerCase : string -> string.

Lemma keyed_app a1 a2 :
  all_strings a1 = true →
  keyed toLowerCase (a1 ++ a2) = keyed toLowerCase a1 ++ keyed toLowerCase a2.
Proof.
  induction a1 as [|[[c i] l] a1 IH]; [reflexivity|].
  cbn [all_strings forallb fst snd app keyed]. destruct c; cbn [is_string andb];
    try discriminate.
  intros H. rewrite (IH H). reflexivity.
Qed.

Lemma all_strings_app a1 a2 :
  all_strings (a1 ++ a2) = all_strings a1 && all_strings a2.
Proof. apply forallb_app. Qed.

Lemma mapping_loop (a : list DataConfig.triple) k : ∀ i this,
  DataConfig.finalSort (dataConfig this) = a →
  i + k = length a →
  for_from i k (fun i =>
    a ← gets (fun this => DataConfig.finalSort (dataConfig this));
    finalCountryData ← index_of a i;
    k ← call_toLowerCase toLowerCase finalCountryData.1.1;
    assign_countryMapping k
      {| entry_income := finalCountryData.1.2;
         entry_labour := finalCountryData.2 |}) this
  = let this' :=
      set_countryMapping
        (assign_all (keyed toLowerCase (drop i a)) (countryMapping this)) this in
    if all_strings (drop i a) then Normal tt this'
    else Throw DataConfig.TypeError this'.
Proof.
  induction k as [|k IH]; intros i this Ha Hn.
  - rewrite drop_ge by lia. cbn. now rewrite set_countryMapping_same.
  - destruct (lookup_lt_is_Some_2 a i) as [d Hd]; [lia|].
    rewrite (drop_S _ _ _ Hd).
    cbn [for_from]. unfold mbind at 1, M_bind at 1.
    unfold mbind at 1, M_bind at 1, gets at 1. rewrite Ha.
    unfold mbind at 1, M_bind at 1, index_of at 1. rewrite Hd.
    unfold mret at 1, M_ret at 1.
    unfold mbind at 1, M_bind at 1.
    destruct d as [[c inc] lab]. cbn [fst snd keyed all_strings forallb].
    destruct c; cbn [call_toLowerCase is_string andb throw assign_all foldl];
      try (now rewrite set_countryMapping_same).
    unfold mret at 1, M_ret at 1, assign_countryMapping at 1.
    rewrite IH by (cbn; auto; lia). cbn [countryMapping set_countryMapping fst snd].
    reflexivity.
Qed.

Lemma tooltip_loop (a : list DataConfig.triple) k : ∀ i this,
  DataConfig.secondSort (dataConfig this) = a →
  i + k = length a →
  for_from i k (fun i =>
    a ← gets (fun this => DataConfig.secondSort (dataConfig this));
    secondCountryData ← index_of a i;
    k ← call_toLowerCase toLowerCase secondCountryData.1.1;
    assign_countryTooltip k
      {| entry_income := secondCountryData.1.2;
         entry_labour := secondCountryData.2 |}) this
  = let this' :=
      set_countryTooltip
        (assign_all (keyed toLowerCase (drop i a)) (countryTooltip this)) this in
    if all_strings (drop i a) then Normal tt this'
    else Throw DataConfig.TypeError this'.
Proof.
  induction k as [|k IH]; intros i this Ha Hn.
  - rewrite drop_ge by lia. cbn. now rewrite set_countryTooltip_same.
  - destruct (lookup_lt_is_Some_2 a i) as [d Hd]; [lia|].
    rewrite (drop_S _ _ _ Hd).
    cbn [for_from]. unfold mbind at 1, M_bind at 1.
    unfold mbind at 1, M_bind at 1, gets at 1. rewrite Ha.
    unfold mbind at 1, M_bind at 1, index_of at 1. rewrite Hd.
    unfold mret at 1, M_ret at 1.
    unfold mbind at 1, M_bind at 1.
    destruct d as [[c inc] lab]. cbn [fst snd keyed all_strings forallb].
    destruct c; cbn [call_toLowerCase is_string andb throw assign_all foldl];
      try (now rewrite set_countryTooltip_same).
    unfold mret at 1, M_ret at 1, assign_countryTooltip at 1.
    rewrite IH by (cbn; auto; lia). cbn [countryTooltip set_countryTooltip fst snd].
    reflexivity.
Qed.

Lemma updateTooltip_spec name this :
  updateTooltip toLowerCase name this
  = let a := DataConfig.secondSort (dataConfig this) in
    let this' :=
      set_countryTooltip
        (assign_all (keyed toLowerCase a) (countryTooltip this)) this in
    if all_strings a then tooltip_html toLowerCase name this'
    else Throw DataConfig.TypeError this'.
Proof.
  unfold updateTooltip, for_loop. unfold mbind at 1, M_bind at 1, gets at 1.
  unfold mbind at 1, M_bind at 1.
  rewrite (tooltip_loop (DataConfig.secondSort (dataConfig this)))
    by (reflexivity || lia).
  rewrite drop_0. cbv zeta.
  destruct (all_strings _); reflexivity.
Qed.

Lemma state_of_tooltip_html name this :
  state_of (tooltip_html toLowerCase name this) = this.
Proof.
  unfold tooltip_html, mbind, M_bind.
  destruct name; cbn [call_toLowerCase throw state_of mret M_ret]; try reflexivity.
  unfold gets.
  destruct (truthy _); [|reflexivity].
  cbn [call_toString mret M_ret].
  destruct (found_labour _); reflexivity.
Qed.

Lemma current_legend_state this legend this' :
  current_legend this = Normal legend this' → this' = this.
Proof.
  unfold current_legend, mbind, M_bind, gets, index_of.
  destruct (currentIndex this) as [i|]; [|discriminate].
  destruct (colourLegends this !! i); [|discriminate].
  intros [= _ <-]. reflexivity.
Qed.

Lemma current_legend_throw this e this' :
  current_legend this = Throw e this' → e = DataConfig.TypeError ∧ this' = this.
Proof.
  unfold current_legend, mbind, M_bind, gets, index_of.
  destruct (currentIndex this) as [i|];
    [destruct (colourLegends this !! i); [discriminate|]|];
    intros H; inversion H; destruct e; auto.
Qed.

(** The current legend depends on the legends and the index only. *)
Lemma current_legend_eq this this2 :
  colourLegends this2 = colourLegends this →
  currentIndex this2 = currentIndex this →
  current_legend this2
  = match current_legend this with
    | Normal legend _ => Normal legend this2
    | Throw e _ => Throw e this2
    end.
Proof.
  unfold current_legend, gets, index_of, mbind, M_bind. intros -> ->.
  destruct (currentIndex this) as [j|]; [|reflexivity].
  destruct (colourLegends this !! j); reflexivity.
Qed.

Lemma has_legend_eq this this2 :
  colourLegends this2 = colourLegends this →
  currentIndex this2 = currentIndex this →
  has_legend this2 = has_legend this.
Proof.
  intros Hl Hi. unfold has_legend. rewrite (current_legend_eq _ _ Hl Hi).
  destruct (current_legend this); reflexivity.
Qed.

Lemma updateColours_spec s this legend :
  current_legend this = Normal legend this →
  updateColours toLowerCase (VString s) this
  = Normal
      (fill_of (LegendRender.colourScheme legend)
         (Get_table (countryMapping this) (toLowerCase s)))
      this.
Proof.
  intros H. unfold updateColours. unfold mbind at 1, M_bind at 1.
  rewrite H. reflexivity.
Qed.

(** [#updateColours] either returns a fill or ends in a TypeError; it
    leaves the instance as it is. *)
Lemma updateColours_outcome name this :
  (has_legend this && is_string name = true
   ∧ ∃ c, updateColours toLowerCase name this = Normal c this)
  ∨ (has_legend this && is_string name = false
     ∧ updateColours toLowerCase name this = Throw DataConfig.TypeError this).
Proof.
  assert (Hrun : updateColours toLowerCase name this
                 = match current_legend this with
                   | Normal legend s =>
                       match name with
                       | VString str =>
                           Normal
                             (fill_of (LegendRender.colourScheme legend)
                                (Get_table (countryMapping s) (toLowerCase str)))
                             s
                       | _ => Throw DataConfig.TypeError s
                       end
                   | Throw e s => Throw e s
                   end).
  { unfold updateColours, mbind, M_bind.
    destruct (current_legend this); [|reflexivity].
    destruct name; reflexivity. }
  rewrite Hrun. unfold has_legend.
  destruct (current_legend this) as [legend this'|e this'] eqn:Hl.
  - apply current_legend_state in Hl as ->.
    destruct name; cbn [is_string andb]; eauto.
  - apply current_legend_throw in Hl as [-> ->]. right. auto.
Qed.

Lemma attr_each_updateColours data this :
  attr_each data (updateColours toLowerCase) this
  = if paints this data then Normal tt this
    else Throw DataConfig.TypeError this.
Proof.
  induction data as [|d data IH]; [reflexivity|].
  cbn [attr_each paints forallb]. unfold mbind, M_bind.
  destruct (updateColours_outcome d this) as [[-> [c ->]]|[-> ->]];
    [|reflexivity].
  cbn [andb]. exact IH.
Qed.

Lemma attr_each_fill_callback scheme data this :
  attr_each data (fill_callback toLowerCase scheme) this
  = if forallb is_string data then Normal tt this
    else Throw DataConfig.TypeError this.
Proof.
  induction data as [|d data IH]; [reflexivity|].
  cbn [attr_each forallb]. unfold mbind at 1, M_bind at 1.
  destruct d; cbn [is_string andb]; try reflexivity.
  exact IH.
Qed.

Lemma has_legend_paints this this2 data :
  colourLegends this2 = colourLegends this →
  currentIndex this2 = currentIndex this →
  paints this2 data = paints this data.
Proof.
  intros Hl Hi. unfold paints. rewrite (has_legend_eq _ _ Hl Hi). reflexivity.
Qed.

(** [createMap]: the instance it leaves, and how it ends. *)
Lemma createMap_spec jsonData this :
  createMap toLowerCase jsonData this
  = let a := DataConfig.finalSort (dataConfig this) in
    let filled svg :=
      set_mapSvg svg
        (set_countryMapping
           (assign_all (keyed toLowerCase a) (countryMapping this)) this) in
    if all_strings a then
      if paints this jsonData then Normal tt (filled (Some jsonData))
      else Throw DataConfig.TypeError (filled (Some jsonData))
    else Throw DataConfig.TypeError (filled (Some [])).
Proof.
  unfold createMap, for_loop. unfold mbind at 1, M_bind at 1, assign_mapSvg at 1.
  unfold mbind at 1, M_bind at 1, gets at 1.
  unfold mbind at 1, M_bind at 1.
  rewrite (mapping_loop (DataConfig.finalSort (dataConfig this)))
    by (reflexivity || (cbn; lia)).
  rewrite drop_0. cbv zeta. cbn [dataConfig countryMapping set_mapSvg].
  destruct (all_strings _); [|reflexivity].
  unfold mbind at 1, M_bind at 1, assign_mapSvg at 1.
  rewrite attr_each_updateColours.
  match goal with
  | |- context [paints ?s jsonData] =>
      rewrite (has_legend_paints this s) by reflexivity
  end.
  destruct (paints this jsonData); reflexivity.
Qed.

Lemma call_createLegend_spec legend this :
  call_createLegend legend this
  = match LegendRender.createLegend legend with
    | LegendRender.Normal => Normal tt this
    | LegendRender.Throw e => Throw e this
    end.
Proof.
  unfold call_createLegend. destruct (LegendRender.createLegend legend);
    reflexivity.
Qed.

(** [renderAll]: the instance it leaves, and how it ends. *)
Lemma renderAll_spec jsonData this :
  renderAll toLowerCase jsonData this
  = let a := DataConfig.finalSort (dataConfig this) in
    let filled svg :=
      set_mapSvg svg
        (set_countryMapping
           (assign_all (keyed toLowerCase a) (countryMapping this)) this) in
    if all_strings a then
      if paints this jsonData then
        let this' := set_legendContainer (Some tt) (filled (Some jsonData)) in
        match current_legend this with
        | Normal legend _ =>
            match LegendRender.createLegend legend with
            | LegendRender.Normal => Normal tt this'
            | LegendRender.Throw e => Throw e this'
            end
        | Throw e _ => Throw e this'
        end
      else Throw DataConfig.TypeError (filled (Some jsonData))
    else Throw DataConfig.TypeError (filled (Some [])).
Proof.
  unfold renderAll. unfold mbind at 1, M_bind at 1.
  rewrite createMap_spec. cbv zeta.
  destruct (all_strings _); [|reflexivity].
  destruct (paints this jsonData); [|reflexivity].
  unfold mbind at 1, M_bind at 1, gets at 1. cbn [mapSvg set_mapSvg].
  unfold mbind at 1, M_bind at 1. cbn [selection_of mret M_ret].
  unfold mbind at 1, M_bind at 1, assign_legendContainer at 1.
  unfold mbind, M_bind.
  match goal with
  | |- context [current_legend ?s] =>
      rewrite (current_legend_eq this s) by reflexivity
  end.
  destruct (current_legend this); [|reflexivity].
  apply call_createLegend_spec.
Qed.

(** [cycleLegends]: the instance it leaves, and how it ends. *)
Lemma cycleLegends_spec this :
  cycleLegends toLowerCase this
  = match legendContainer this with
    | None => Throw DataConfig.TypeError this
    | Some _ =>
        let this' :=
          set_currentIndex
            (next_index (currentIndex this) (length (colourLegends this)))
            this in
        match current_legend this' with
        | Throw e _ => Throw e this'
        | Normal legend _ =>
            match LegendRender.createLegend legend with
            | LegendRender.Throw e => Throw e this'
            | LegendRender.Normal =>
                match mapSvg this with
                | None => Throw DataConfig.TypeError this'
                | Some paths =>
                    if forallb is_string paths
                    then Normal
                           (fill_callback toLowerCase
                              (LegendRender.colourScheme legend))
                           this'
                    else Throw DataConfig.TypeError this'
                end
            end
        end
    end.
Proof.
  unfold cycleLegends. unfold mbind at 1, M_bind at 1, gets at 1.
  destruct (legendContainer this) as [[]|]; [|reflexivity].
  unfold mbind at 1, M_bind at 1. cbn [selection_of mret M_ret].
  unfold mbind at 1, M_bind at 1, gets at 1.
  unfold mbind at 1, M_bind at 1, gets at 1.
  unfold mbind at 1, M_bind at 1, assign_currentIndex at 1. cbv zeta.
  unfold mbind at 1, M_bind at 1.
  destruct (current_legend _) as [legend this'|e this'] eqn:Hl;
    [|apply current_legend_throw in Hl as [-> ->]; reflexivity].
  pose proof (current_legend_state _ _ _ Hl) as ->.
  unfold mbind at 1, M_bind at 1. rewrite call_createLegend_spec.
  destruct (LegendRender.createLegend legend); [|reflexivity].
  unfold mbind at 1, M_bind at 1. rewrite Hl.
  unfold mbind at 1, M_bind at 1, gets at 1. cbn [mapSvg set_currentIndex].
  destruct (mapSvg this) as [paths|]; [|reflexivity].
  unfold mbind at 1, M_bind at 1. cbn [selection_of mret M_ret].
  unfold mbind at 1, M_bind at 1.
  change (attr_each paths _) with
    (attr_each paths
       (fill_callback toLowerCase (LegendRender.colourScheme legend))).
  rewrite attr_each_fill_callback.
  destruct (forallb is_string paths); reflexivity.
Qed.

Lemma set_currentIndex_same this : set_currentIndex (currentIndex this) this = this.
Proof. destruct this; reflexivity. Qed.

(** Clicks on an instance that [renderAll] has drawn, with legends that
    can be drawn and names that are Strings. *)
Lemma clicks_spec k : ∀ this i paths,
  legendContainer this = Some tt →
  mapSvg this = Some paths →
  forallb is_string paths = true →
  drawable (colourLegends this) →
  currentIndex this = Index i →
  i < length (colourLegends this) →
  clicks toLowerCase k this
  = Normal tt
      (set_currentIndex (Index ((i + k) mod length (colourLegends this))) this).
Proof.
  induction k as [|k IH]; intros this i paths Hc Hsvg Hpaths Hdraw Hi Hn.
  - rewrite Nat.add_0_r, Nat.mod_small by exact Hn. rewrite <- Hi.
    rewrite set_currentIndex_same. reflexivity.
  - cbn [clicks]. unfold mbind at 1, M_bind at 1. rewrite cycleLegends_spec.
    rewrite Hc, Hsvg, Hpaths, Hi. cbv zeta. unfold next_index.
    destruct (length (colourLegends this)) as [|n] eqn:Hlen; [lia|].
    rewrite <- Hlen in *.
    assert (Hlt : (i + 1) mod length (colourLegends this)
                  < length (colourLegends this))
      by (apply Nat.mod_upper_bound; lia).
    destruct (lookup_lt_is_Some_2 _ _ Hlt) as [legend Hl].
    unfold current_legend, mbind, M_bind, gets, index_of.
    cbn [currentIndex colourLegends set_currentIndex]. rewrite Hl.
    cbn [mret M_ret].
    rewrite (proj1 (Forall_forall _ _) Hdraw legend)
      by (eapply list_elem_of_lookup_2, Hl).
    rewrite (IH _ ((i + 1) mod length (colourLegends this)) paths)
      by (cbn [currentIndex colourLegends set_currentIndex legendContainer
               mapSvg]; auto).
    cbn [currentIndex colourLegends set_currentIndex].
    rewrite Nat.Div0.add_mod_idemp_l.
    replace (i + 1 + k) with (i + S k) by lia. reflexivity.
Qed.

End Methods.

Lemma current_legend_none this :
  colourLegends this = [] → current_legend this = Throw DataConfig.TypeError this.
Proof.
  intros H. unfold current_legend, gets, index_of, mbind, M_bind.
  rewrite H. destruct (currentIndex this); reflexivity.
Qed.

Lemma current_legend_ext this this2 legend this' :
  colourLegends this2 = colourLegends this →
  currentIndex this2 = currentIndex this →
  current_legend this = Normal legend this' →
  current_legend this2 = Normal legend this2.
Proof.
  intros Hl Hi H. rewrite (current_legend_eq _ _ Hl Hi), H. reflexivity.
Qed.

End MapRenderFacts.

(** ** Lookups in the two objects, and the fill of an entry *)
Module LookupFacts.
Import JS MapRender RenderSpec MapRenderFacts.

Lemma own_assign_all_elem kes : ∀ o k e,
  own (assign_all kes o) !! k = Some e → e ∈ kes.*2 ∨ own o !! k = Some e.
Proof.
  induction kes as [|[k' e'] kes IH]; intros o k e H; [right; exact H|].
  rewrite assign_all_cons in H. rewrite fmap_cons, elem_of_cons. cbn [snd].
  destruct (IH _ _ _ H) as [Hin|Hown]; [left; right; exact Hin|].
  unfold Set_table in Hown. destruct (String.eqb k' "__proto__");
    cbn [own] in Hown; [right; exact Hown|].
  apply lookup_insert_Some in Hown as [[_ ->]|[_ Hown]]; auto.
Qed.

Lemma proto_assign_all_elem kes : ∀ o e,
  proto (assign_all kes o) = Some e → e ∈ kes.*2 ∨ proto o = Some e.
Proof.
  induction kes as [|[k' e'] kes IH]; intros o e H; [right; exact H|].
  rewrite assign_all_cons in H. rewrite fmap_cons, elem_of_cons. cbn [snd].
  destruct (IH _ _ H) as [Hin|Hp]; [left; right; exact Hin|].
  unfold Set_table in Hp. destruct (String.eqb k' "__proto__");
    cbn [proto] in Hp; [|right; exact Hp].
  injection Hp as ->. auto.
Qed.

Lemma Get_table_own o k e : own o !! k = Some e → Get_table o k = FEntry e.
Proof. intros H. unfold Get_table. rewrite H. reflexivity. Qed.

Lemma Get_table_entry o k e :
  Get_table o k = FEntry e → own o !! k = Some e ∨ proto o = Some e.
Proof.
  unfold Get_table. destruct (own o !! k); [intros [= ->]; auto|].
  destruct (proto o); [|discriminate].
  repeat (destruct (String.eqb k _); try discriminate).
  intros [= ->]. auto.
Qed.

(** A key that is no own property and is not [__proto__] finds no entry. *)
Lemma Get_table_other o k :
  own o !! k = None → k ≠ "__proto__"%string → ∃ v, Get_table o k = FVal v.
Proof.
  intros H Hk. unfold Get_table. rewrite H.
  destruct (proto o); [|eauto].
  destruct (String.eqb k "income"); [eauto|].
  destruct (String.eqb k "labour"); [eauto|].
  destruct (String.eqb_spec k "__proto__"); [contradiction|eauto].
Qed.

Lemma Get_table_plain o k :
  own o !! k = None → proto o = None →
  Get_table o k = FVal (default VUndefined (Object_prototype !! k)).
Proof. intros H Hp. unfold Get_table. rewrite H, Hp. reflexivity. Qed.

Lemma Get_table_assigned kes k e :
  Get_table (assign_all kes empty_table) k = FEntry e → e ∈ kes.*2.
Proof.
  intros H. apply Get_table_entry in H as [H|H].
  - apply own_assign_all_elem in H as [H|H]; [exact H|].
    cbn in H. rewrite lookup_empty in H. discriminate.
  - apply proto_assign_all_elem in H as [H|H]; [exact H|discriminate].
Qed.

Lemma Get_table_unassigned kes k :
  k ∉ kes.*1 → ∃ v, Get_table (assign_all kes empty_table) k = FVal v.
Proof.
  intros Hk.
  assert (Hown : own (assign_all kes empty_table) !! k = None).
  { rewrite own_assign_all_other by exact Hk. apply lookup_empty. }
  destruct (decide (k = "__proto__"%string)) as [->|Hne].
  - rewrite Get_table_plain; [eauto | exact Hown |].
    rewrite proto_assign_all_other by exact Hk. reflexivity.
  - apply Get_table_other; assumption.
Qed.

Lemma array_key_engine v : array_key v = KEngine → ∃ s, v = VString s.
Proof.
  destruct v as [|x|s|b]; cbn [array_key]; try discriminate; [|eauto].
  destruct (integer_value x) as [z|]; [|discriminate].
  destruct (0 <=? z)%Z; discriminate.
Qed.

Lemma fill_of_FVal scheme v : fill_of scheme (FVal v) = Colour "#dee3e3".
Proof. unfold fill_of. destruct (truthy _); reflexivity. Qed.

(** An entry whose two fields are not Strings gets a cell of the scheme or
    the neutral colour. *)
Lemma fill_of_entry scheme e :
  (∀ s, entry_income e ≠ VString s) → (∀ s, entry_labour e ≠ VString s) →
  ∃ c, fill_of scheme (FEntry e) = Colour c
       ∧ (c = "#dee3e3"%string ∨ ∃ row, row ∈ scheme ∧ c ∈ row).
Proof.
  intros Hi Hl. unfold fill_of, truthy, found_income, found_labour, Array_Get.
  destruct (array_key (entry_income e)) as [i| |] eqn:Ki; [|eauto|].
  - destruct (scheme !! i) as [row|] eqn:Hrow; [|eauto].
    destruct (array_key (entry_labour e)) as [j| |] eqn:Kj; [|eauto|].
    + destruct (row !! j) as [c|] eqn:Hc; [|eauto].
      destruct (String.eqb c ""); [eauto|].
      exists c. split; [reflexivity|]. right. exists row.
      split; eapply list_elem_of_lookup_2; eassumption.
    + apply array_key_engine in Kj as [s Hs]. destruct (Hl s Hs).
  - apply array_key_engine in Ki as [s Hs]. destruct (Hi s Hs).
Qed.

End LookupFacts.

(** ** The page of main.js: [loaded], clicks and hovers *)
Module MainRenderFacts.
Import JS MapRender RenderSpec Spec Refinement Facts MapRenderFacts LookupFacts.

#[local] Arguments Nat.modulo : simpl never.

Lemma all_strings_Forall a :
  all_strings a = true ↔ Forall (λ d : DataConfig.triple, ∃ s, d.1.1 = VString s) a.
Proof.
  unfold all_strings. induction a as [|[[c i] l] a IH]; cbn [forallb fst snd].
  - split; [constructor | reflexivity].
  - rewrite Forall_cons, andb_true_iff, IH. cbn [fst snd].
    destruct c; cbn [is_string]; split; intros [H1 H2]; split; eauto;
      try discriminate; destruct H1; discriminate.
Qed.

Lemma all_strings_Stage3 ic lc a : all_strings (Stage3 ic lc a) = all_strings a.
Proof.
  unfold all_strings, Stage3. induction a as [|[[c i] l] a IH]; [reflexivity|].
  rewrite fmap_cons. cbn [forallb BucketedRecord fst snd]. rewrite IH.
  reflexivity.
Qed.

Lemma keyed_Stage3 tl ic lc a :
  keyed tl (Stage3 ic lc a) = prod_map id (bucketed ic lc) <$> keyed tl a.
Proof.
  unfold Stage3. induction a as [|[[c i] l] a IH]; [reflexivity|].
  rewrite fmap_cons. cbn [keyed BucketedRecord fst snd].
  destruct c; try reflexivity. rewrite IH. reflexivity.
Qed.

Lemma keyed_keys tl a k :
  k ∈ (keyed tl a).*1 → ∃ c i l, (VString c, i, l) ∈ a ∧ k = tl c.
Proof.
  induction a as [|[[c i] l] a IH]; cbn [keyed fst snd].
  - intros H. apply elem_of_nil in H. contradiction.
  - destruct c; try (intros H; apply elem_of_nil in H; contradiction).
    rewrite fmap_cons, elem_of_cons. cbn [fst]. intros [->|H].
    + exists s, i, l. split; [left | reflexivity].
    + destruct (IH H) as (c' & i' & l' & Hin & ->).
      exists c', i', l'. split; [right; exact Hin | reflexivity].
Qed.

Lemma paints_strings this data :
  has_legend this = true → paints this data = forallb is_string data.
Proof. intros H. unfold paints. rewrite H. reflexivity. Qed.

Lemma forallb_is_string (data : list val) :
  forallb is_string data = true ↔ Forall (λ d, ∃ s, d = VString s) data.
Proof.
  induction data as [|d data IH]; cbn [forallb].
  - split; [constructor | reflexivity].
  - rewrite Forall_cons, andb_true_iff, IH.
    destruct d; cbn [is_string]; split; intros [H1 H2]; split; eauto;
      try discriminate; destruct H1; discriminate.
Qed.

Lemma drawable_main : drawable MainRender.colourLegends.
Proof. repeat constructor. Qed.

(** The state in which [loaded] leaves [mapRender], and how it ends. *)
Lemma loaded_spec tl csvData jsonData :
  let a := normalize Main.countryConfig Main.incomeConfig Main.labourConfig
             csvData in
  let d :=
    {| DataConfig.countryConfig := Main.countryConfig;
       DataConfig.incomeConfig := Main.incomeConfig;
       DataConfig.labourConfig := Main.labourConfig;
       DataConfig.firstSort := Stage1 csvData;
       DataConfig.secondSort := Stage2 Main.countryConfig (Stage1 csvData);
       DataConfig.finalSort := a |} in
  let left svg container :=
    {| colourLegends := MainRender.colourLegends;
       dataConfig := d;
       countryMapping := assign_all (keyed tl a) empty_table;
       countryTooltip := empty_table;
       mapSvg := svg;
       currentIndex := Index 0;
       legendContainer := container |} in
  MainRender.loaded tl csvData jsonData MainRender.mapRender
  = if all_strings a then
      if forallb is_string jsonData
      then Normal tt (left (Some jsonData) (Some tt))
      else Throw DataConfig.TypeError (left (Some jsonData) None)
    else Throw DataConfig.TypeError (left (Some []) None).
Proof.
  cbv zeta. unfold MainRender.loaded. unfold mbind at 1, M_bind at 1.
  unfold dataConfig_parseData, MainRender.mapRender, MapRender.constructor.
  cbn [dataConfig]. unfold Main.dataConfig. rewrite parseData_fresh.
  rewrite renderAll_spec. cbv zeta.
  cbn [dataConfig set_dataConfig DataConfig.finalSort countryMapping].
  destruct (all_strings _); [|reflexivity].
  rewrite paints_strings by reflexivity.
  destruct (forallb is_string jsonData); reflexivity.
Qed.

Lemma countryConfig_strings s v :
  Main.countryConfig !! s = Some v → ∃ t, v = VString t.
Proof. intros H. each_entry H ltac:(eexists; reflexivity). Qed.

Lemma remap_string s :
  Object_prototype !! s = None →
  ∃ t, remap Main.countryConfig (VString s) = VString t.
Proof.
  intros Hp. destruct (Main.countryConfig !! s) as [v|] eqn:Hk.
  - rewrite (remap_key _ _ Hk). exact (countryConfig_strings _ _ Hk).
  - rewrite (remap_not_key _ Hk Hp). eauto.
Qed.

Lemma normalize_country (csvData : list object) t :
  t ∈ normalize Main.countryConfig Main.incomeConfig Main.labourConfig csvData →
  ∃ row, row ∈ csvData
         ∧ t.1.1 = remap Main.countryConfig (Get row "setting").
Proof.
  unfold normalize, Stage3, Stage2, Stage1. intros H.
  apply list_elem_of_fmap in H as (u & -> & H).
  apply list_elem_of_fmap in H as (d & -> & H).
  apply elem_of_even_valid in H as (i & H & _).
  apply list_elem_of_lookup_2 in H.
  apply list_elem_of_fmap in H as (row & -> & H).
  apply list_elem_of_filter in H as [_ H].
  exists row. split; [exact H | reflexivity].
Qed.

Lemma remap_undefined : remap Main.countryConfig VUndefined = VUndefined.
Proof. vm_compute. reflexivity. Qed.


Lemma Get_incomeConfig_not_string label s :
  Get Main.incomeConfig label ≠ VString s.
Proof.
  unfold Get. destruct (Main.incomeConfig !! label) as [v|] eqn:Hk.
  - each_entry Hk ltac:(discriminate).
  - destruct (Object_prototype !! label) as [v|] eqn:Hp; [|discriminate].
    apply Object_prototype_objects in Hp as [b ->]. discriminate.
Qed.

Lemma labourConfig_not_string v s : Main.labourConfig v ≠ VString s.
Proof.
  destruct (labourConfig_cases v) as [H|[H|H]]; rewrite H; discriminate.
Qed.


Lemma keyed_last tl pre c inc lab post :
  all_strings pre = true →
  (∀ c' i l, (VString c', i, l) ∈ post → tl c' ≠ tl c) →
  ∃ kpre kpost,
    keyed tl (pre ++ (VString c, inc, lab) :: post)
    = kpre ++ (tl c, {| entry_income := inc; entry_labour := lab |}) :: kpost
    ∧ tl c ∉ kpost.*1.
Proof.
  intros Hpre Hpost. exists (keyed tl pre), (keyed tl post).
  split; [rewrite (keyed_app _ _ _ Hpre); reflexivity|].
  intros Hin. apply keyed_keys in Hin as (c' & i & l & Hin & Heq).
  exact (Hpost c' i l Hin (eq_sym Heq)).
Qed.

(** The states after [loaded] and any number of clicks. *)
Lemma loaded_clicks tl csvData jsonData k this1 this2 :
  MainRender.loaded tl csvData jsonData MainRender.mapRender = Normal tt this1 →
  clicks tl k this1 = Normal tt this2 →
  let a := normalize Main.countryConfig Main.incomeConfig Main.labourConfig
             csvData in
  all_strings a = true
  ∧ countryMapping this2 = assign_all (keyed tl a) empty_table
  ∧ ∃ legend, legend ∈ MainRender.colourLegends
              ∧ colourLegends this2 = MainRender.colourLegends
              ∧ current_legend this2 = Normal legend this2.
Proof.
  rewrite loaded_spec. cbv zeta. destruct (all_strings _) eqn:Hs; [|discriminate].
  destruct (forallb is_string jsonData) eqn:Hj; [|discriminate].
  intros [= <-].
  rewrite (clicks_spec tl k _ 0 jsonData)
    by (try apply drawable_main; cbn; auto; lia).
  intros [= <-]. split; [reflexivity|]. split; [reflexivity|].
  match goal with
  | |- context [set_currentIndex (Index ?j) _] =>
      assert (Hlt : j < length MainRender.colourLegends)
        by (apply Nat.mod_upper_bound; discriminate);
      generalize dependent j
  end.
  intros j Hlt.
  destruct (lookup_lt_is_Some_2 _ _ Hlt) as [legend Hl].
  exists legend. split; [eapply list_elem_of_lookup_2, Hl|].
  split; [reflexivity|].
  unfold current_legend, mbind, M_bind, gets, index_of.
  cbn [colourLegends set_currentIndex currentIndex]. rewrite Hl. reflexivity.
Qed.

Lemma assign_all_bucketed ic lc kes : ∀ o o',
  own o' = bucketed ic lc <$> own o →
  proto o' = bucketed ic lc <$> proto o →
  own (assign_all (prod_map id (bucketed ic lc) <$> kes) o')
    = bucketed ic lc <$> own (assign_all kes o)
  ∧ proto (assign_all (prod_map id (bucketed ic lc) <$> kes) o')
    = bucketed ic lc <$> proto (assign_all kes o).
Proof.
  induction kes as [|[k e] kes IH]; intros o o' Hown Hproto; [auto|].
  rewrite fmap_cons, !assign_all_cons. apply IH.
  - unfold Set_table. cbn [prod_map fst snd id].
    destruct (String.eqb k "__proto__"); cbn [own]; [exact Hown|].
    rewrite fmap_insert, Hown. reflexivity.
  - unfold Set_table. cbn [prod_map fst snd id].
    destruct (String.eqb k "__proto__"); cbn [proto]; [reflexivity|exact Hproto].
Qed.

(** Where a hover leaves an instance that [loaded] left. *)
Lemma hover_after_load tl csvData jsonData this1 name :
  MainRender.loaded tl csvData jsonData MainRender.mapRender = Normal tt this1 →
  let a := Stage2 Main.countryConfig (Stage1 csvData) in
  let this2 := set_countryTooltip (assign_all (keyed tl a) empty_table) this1 in
  all_strings a = true
  ∧ countryMapping this1
    = assign_all
        (keyed tl (Stage3 Main.incomeConfig Main.labourConfig a)) empty_table
  ∧ updateTooltip tl name this1 = tooltip_html tl name this2.
Proof.
  rewrite loaded_spec. cbv zeta. unfold normalize.
  rewrite all_strings_Stage3.
  destruct (all_strings _) eqn:Hs; [|discriminate].
  destruct (forallb is_string jsonData); [|discriminate].
  intros [= <-]. split; [reflexivity|]. split; [reflexivity|].
  rewrite updateTooltip_spec. cbv zeta.
  cbn [dataConfig DataConfig.secondSort countryTooltip]. rewrite Hs.
  reflexivity.
Qed.

Lemma Stage2_labour cc rows u :
  u ∈ Stage2 cc (Stage1 rows) → ∃ s, u.2 = VString s.
Proof.
  unfold Stage2. intros H. apply list_elem_of_fmap in H as (d & -> & H).
  apply elem_of_even_valid in H as (i & H & _).
  apply list_elem_of_lookup_2 in H. exact (labour_of_Stage1 _ _ H).
Qed.

(** The cell of a known income tertile and any labour tertile, in each of
    the three schemes of main.js. *)
Lemma cell_of_tertiles legend label v rate :
  legend ∈ MainRender.colourLegends →
  Main.incomeConfig !! label = Some v →
  ∃ a b colour,
    array_key v = KIndex a
    ∧ array_key (Main.labourConfig rate) = KIndex b
    ∧ LegendRender.colourScheme legend !! a ≫= (.!! b) = Some colour
    ∧ fill_of (LegendRender.colourScheme legend)
        (FEntry {| entry_income := v;
                   entry_labour := Main.labourConfig rate |})
      = Colour colour.
Proof.
  intros Hlegend Hk.
  assert (Hv : v = VNumber (lit 0 0) ∨ v = VNumber (lit 1 0)
               ∨ v = VNumber (lit 2 0)).
  { each_entry Hk ltac:(auto). }
  apply list_elem_of_In in Hlegend. simpl in Hlegend.
  destruct Hlegend as [ <- | [ <- | [ <- | [] ] ] ];
    destruct Hv as [ -> | [ -> | -> ] ];
    destruct (labourConfig_cases rate) as [ -> | [ -> | -> ] ];
    do 3 eexists; repeat split; vm_compute; reflexivity.
Qed.

Lemma keys_bucketed ic lc (kes : list (string * entry)) :
  (prod_map id (bucketed ic lc) <$> kes).*1 = kes.*1.
Proof.
  induction kes as [|[k e] kes IH]; [reflexivity|].
  rewrite !fmap_cons, IH. reflexivity.
Qed.

Lemma scenario_records c i l :
  (VString c, i, l)
    ∈ normalize Main.countryConfig Main.incomeConfig Main.labourConfig
        [Scenario.urban; Scenario.rural] →
  c = "Russia".
Proof.
  replace (normalize Main.countryConfig Main.incomeConfig Main.labourConfig
             [Scenario.urban; Scenario.rural])
    with [(VString "Russia", VNumber (lit 1 0), VNumber (lit 1 0))]
    by (vm_compute; reflexivity).
  intros H. apply list_elem_of_singleton in H. congruence.
Qed.

End MainRenderFacts.

(** ** Further properties *)
Import DataConfigFacts.

(** X1. From any state and on any rows, [parseData] completes normally:
    every array read is within bounds. It returns [undefined], leaves the
    three configuration fields as they are, and only appends to the three
    arrays. *)
Theorem X1_parseData_completes (csvData : list object) (this : DataConfig.t) :
  ∃ this',
    parseData csvData this = Normal VUndefined this'
    ∧ countryConfig this' = countryConfig this
    ∧ incomeConfig this' = incomeConfig this
    ∧ labourConfig this' = labourConfig this
    ∧ firstSort this `prefix_of` firstSort this'
    ∧ secondSort this `prefix_of` secondSort this'
    ∧ finalSort this `prefix_of` finalSort this'.
Proof.
  rewrite parseData_spec. eexists. split; [reflexivity|].
  cbn [countryConfig incomeConfig labourConfig firstSort secondSort finalSort].
  repeat split; apply prefix_app_r; reflexivity.
Qed.

(** X2. A row that lacks the [indicator_name] or the [dimension] column, or
    fails one of the two tests, is passed over without an exception: with
    the row anywhere in the input, [parseData] does what it does without
    it. *)
Theorem X2_unkept_row_has_no_effect
    (rows1 rows2 : list object) (row : object) (this : DataConfig.t) :
  row !! "indicator_name"%string = None ∨ row !! "dimension"%string = None
  ∨ ¬ passes row →
  parseData (rows1 ++ row :: rows2) this = parseData (rows1 ++ rows2) this.
Proof.
  intros H. assert (Hno : ¬ passes row).
  { destruct H as [H|[H|H]]; [| |exact H]; intros [Hi Hd].
    - rewrite (Get_missing_column _ _ H) in Hi by reflexivity. discriminate.
    - rewrite (Get_missing_column _ _ H) in Hd by reflexivity. discriminate. }
  rewrite !parseData_spec, (Stage1_skip _ _ _ Hno). reflexivity.
Qed.

Lemma X2_witness :
  parseData ([Scenario.urban] ++ Examples.no_dimension :: [Scenario.rural])
    Main.dataConfig
  = parseData ([Scenario.urban] ++ [Scenario.rural]) Main.dataConfig.
Proof.
  apply X2_unkept_row_has_no_effect. right. left. vm_compute. reflexivity.
Defined.

(** X3. On a fresh instance, stage 1 keeps at most as many records as
    there are rows, stage 2 at most every second one of them, rounded up,
    and stage 3 exactly as many as stage 2. *)
Theorem X3_sizes_of_the_three_arrays
    (countryConfig incomeConfig : object) (labourConfig : val → val)
    (csvData : list object) :
  ∃ this',
    parseData csvData (constructor countryConfig incomeConfig labourConfig)
      = Normal VUndefined this'
    ∧ length (firstSort this') ≤ length csvData
    ∧ length (secondSort this') ≤ (length (firstSort this') + 1) / 2
    ∧ length (finalSort this') = length (secondSort this').
Proof.
  rewrite parseData_fresh. eexists. split; [reflexivity|].
  cbn [firstSort secondSort finalSort]. unfold normalize, Stage3, Stage2, Stage1.
  rewrite !length_fmap. split; [apply length_filter|].
  split; [|reflexivity].
  rewrite <- (length_fmap FilteredRecord (filter passes csvData)).
  apply length_even_valid.
Qed.

(** X4. Stage 2 takes [firstSort] two records at a time: of each pair the
    second is never pushed, whatever it holds, and when the income label of
    the first is undefined or empty the pair gives nothing. With [firstSort]
    holding [d1], [d2] and then [a], [secondSort] ends with what it held,
    then the record of [d1] if its label is valid, then what stage 2 makes
    of [a]; the other two arrays are as they were. *)
Theorem X4_stage2_by_pairs
    (this : DataConfig.t) (d1 d2 : firstCountryData)
    (a : list firstCountryData) :
  let pushed :=
    (if decide (valid_income d1)
     then [DedupedRecord (countryConfig this) d1] else [])
    ++ Stage2 (countryConfig this) a in
  let after :=
    set_secondSort (secondSort this ++ pushed)
      (set_firstSort (d1 :: d2 :: a) this) in
  secondParseData (set_firstSort (d1 :: d2 :: a) this) = Normal tt after
  ∧ secondSort after = secondSort this ++ pushed
  ∧ firstSort after = d1 :: d2 :: a
  ∧ finalSort after = finalSort this.
Proof.
  cbv zeta. split; [|repeat split].
  rewrite secondParseData_spec.
  cbn [firstSort secondSort countryConfig set_firstSort].
  unfold Stage2. rewrite even_valid_pair, fmap_app.
  case_decide; reflexivity.
Qed.

(** X5. Stage 1 may be fed in pieces: [firstParseData] on two lists one
    after the other does what it does on their concatenation, and
    [firstSort] ends with what it held, then the records of the first list,
    then those of the second. *)
Theorem X5_stage1_in_pieces
    (rows1 rows2 : list object) (this : DataConfig.t) :
  (firstParseData rows1 ;; firstParseData rows2) this
  = firstParseData (rows1 ++ rows2) this
  ∧ ∃ this',
      firstParseData (rows1 ++ rows2) this = Normal tt this'
      ∧ firstSort this' = firstSort this ++ Stage1 rows1 ++ Stage1 rows2.
Proof.
  unfold mbind, M_bind. rewrite !firstParseData_spec.
  cbn [firstSort set_firstSort]. rewrite Stage1_app, app_assoc.
  split; [reflexivity|]. eexists. split; reflexivity.
Qed.

(** X6. In every state an instance reaches, however many times [parseData]
    was called: the configuration is the one given to the constructor; every
    record of [firstSort] was made from a row that passes both tests; every
    record of [secondSort] was made from a record of [firstSort] at an even
    index with a valid income label; and [finalSort] holds the bucketed
    records of [secondSort], all of them and nothing else. *)
Theorem X6_what_the_arrays_hold
    (cc ic : object) (lc : val → val) (this : DataConfig.t) :
  Reach.reachable cc ic lc this →
  (countryConfig this = cc ∧ incomeConfig this = ic ∧ labourConfig this = lc)
  ∧ (∀ d, d ∈ firstSort this → ∃ row, passes row ∧ d = FilteredRecord row)
  ∧ (∀ u, u ∈ secondSort this →
       ∃ i d, firstSort this !! i = Some d ∧ i mod 2 = 0 ∧ valid_income d
              ∧ u = DedupedRecord cc d)
  ∧ (∀ t, t ∈ finalSort this ↔
       ∃ u, u ∈ secondSort this ∧ t = BucketedRecord ic lc u).
Proof.
  induction 1 as [|this csvData r this' Hreach IH Hcall].
  - split; [repeat split|]. cbn [firstSort secondSort finalSort constructor].
    split; [intros d Hd; apply elem_of_nil in Hd; contradiction|].
    split; [intros d Hd; apply elem_of_nil in Hd; contradiction|].
    intros t. split; [intros Ht; apply elem_of_nil in Ht; contradiction|].
    intros (u & Hu & _). apply elem_of_nil in Hu. contradiction.
  - destruct IH as ((Hcc & Hic & Hlc) & Hfirst & Hsecond & Hfinal).
    rewrite parseData_spec in Hcall. injection Hcall as _ <-.
    cbn [countryConfig incomeConfig labourConfig firstSort secondSort finalSort].
    rewrite Hcc, Hic, Hlc.
    split; [repeat split|].
    split; [|split].
    + intros d Hd. apply elem_of_app in Hd as [Hd|Hd]; [apply Hfirst, Hd|].
      apply list_elem_of_fmap in Hd as (row & -> & Hrow).
      apply list_elem_of_filter in Hrow as [Hrow _]. exists row. auto.
    + intros u Hu. apply elem_of_app in Hu as [Hu|Hu].
      * destruct (Hsecond u Hu) as (i & d & Hi & He & Hv & ->).
        exists i, d. split; [apply lookup_app_l_Some, Hi|]. auto.
      * apply list_elem_of_fmap in Hu as (d & -> & Hd).
        apply elem_of_even_valid in Hd as (i & Hi & He & Hv).
        exists i, d. auto.
    + intros t. rewrite elem_of_app. split.
      * intros [Ht|Ht].
        -- apply Hfinal in Ht as (u & Hu & ->). exists u.
           split; [apply elem_of_app; left; exact Hu | reflexivity].
        -- apply list_elem_of_fmap in Ht as (u & -> & Hu). exists u. auto.
      * intros (u & Hu & ->). right. apply list_elem_of_fmap_2. exact Hu.
Qed.

Lemma X6_witness :
  (countryConfig Examples.after_scenario = Main.countryConfig
   ∧ incomeConfig Examples.after_scenario = Main.incomeConfig
   ∧ labourConfig Examples.after_scenario = Main.labourConfig)
  ∧ (∀ d, d ∈ firstSort Examples.after_scenario →
       ∃ row, passes row ∧ d = FilteredRecord row)
  ∧ (∀ u, u ∈ secondSort Examples.after_scenario →
       ∃ i d, firstSort Examples.after_scenario !! i = Some d ∧ i mod 2 = 0
              ∧ valid_income d ∧ u = DedupedRecord Main.countryConfig d)
  ∧ (∀ t, t ∈ finalSort Examples.after_scenario ↔
       ∃ u, u ∈ secondSort Examples.after_scenario
            ∧ t = BucketedRecord Main.incomeConfig Main.labourConfig u).
Proof.
  apply (X6_what_the_arrays_hold Main.countryConfig).
  apply (Reach.reachable_parseData _ _ _ Main.dataConfig
           [Scenario.urban; Scenario.rural] VUndefined).
  - apply Reach.reachable_new.
  - unfold Main.dataConfig. rewrite parseData_fresh.
    unfold Examples.after_scenario. f_equal; f_equal; vm_compute; reflexivity.
Defined.

Import OrderFacts.

(** X7. [labourConfig] is monotone on Numbers: a participation rate that
    is not above another never gets a higher tertile. *)
Theorem X7_labour_tertile_monotone (x y : number) :
  leb x y = true →
  le_number (Main.labourConfig (VNumber x))
    (ToNumber (Main.labourConfig (VNumber y))) = true.
Proof.
  intros Hxy. unfold Main.labourConfig, le_number, lt_number. cbn [ToNumber].
  destruct (leb x (lit 450 (-1))) eqn:Hx45.
  { destruct (leb y (lit 450 (-1))); [reflexivity|].
    destruct (ltb (lit 450 (-1)) y && leb y (lit 580 (-1))); reflexivity. }
  assert (Hy45 : leb y (lit 450 (-1)) = false).
  { destruct (leb y (lit 450 (-1))) eqn:Hy; [|reflexivity].
    rewrite (leb_trans _ _ _ Hxy Hy) in Hx45. discriminate. }
  rewrite Hy45.
  assert (Hlt : ltb (lit 450 (-1)) x = true).
  { revert Hx45. rewrite lit_45. apply (not_leb_ltb _ _ _ _ _ Hxy). }
  rewrite Hlt. cbn [andb].
  destruct (leb x (lit 580 (-1))) eqn:Hx58.
  { destruct (ltb (lit 450 (-1)) y && leb y (lit 580 (-1))); reflexivity. }
  assert (Hy58 : leb y (lit 580 (-1)) = false).
  { destruct (leb y (lit 580 (-1))) eqn:Hy; [|reflexivity].
    rewrite (leb_trans _ _ _ Hxy Hy) in Hx58. discriminate. }
  rewrite Hy58, andb_false_r. reflexivity.
Qed.

Lemma X7_witness :
  le_number (Main.labourConfig (VNumber (lit 400 (-1))))
    (ToNumber (Main.labourConfig (VNumber (lit 500 (-1))))) = true.
Proof. apply X7_labour_tertile_monotone. vm_compute. reflexivity. Defined.

(** X8. With the table of main.js, rewriting a country name twice gives
    what rewriting it once gives, for every String: a key is sent to a
    name that is left alone, an inherited name to a built-in object that is
    left alone, and any other name is left alone. *)
Theorem X8_remap_is_idempotent (s : string) :
  remap Main.countryConfig (remap Main.countryConfig (VString s))
  = remap Main.countryConfig (VString s).
Proof.
  destruct (Main.countryConfig !! s) as [v|] eqn:Hk.
  - rewrite (remap_key s v Hk). apply (countryConfig_targets s v Hk).
  - destruct (Object_prototype !! s) as [b|] eqn:Hp.
    + unfold remap at 2. cbn [ToString]. rewrite (Get_inherited _ _ _ Hk Hp).
      each_entry Hp ltac:(vm_compute; reflexivity).
    + rewrite !(remap_not_key s Hk Hp). reflexivity.
Qed.

(** ** Properties of [MapRender] and of the page *)
Import MapRender RenderSpec MapRenderFacts LookupFacts MainRenderFacts
  RenderExamples.

(** X9. [createMap] sets [mapSvg] and assigns to [countryMapping] one
    entry per record of [finalSort], in order, under the lower-cased
    country; it changes no other field. When a country is not a String, the
    call of [toLowerCase] on it is a TypeError, with the entries of the
    records before it assigned and no path in the map yet. When every
    country is a String, the paths carry the map data and [attr] paints
    them: the method completes when [#updateColours] completes on each,
    and ends in a TypeError otherwise. *)
Theorem X9_createMap_fills_the_mapping
    (toLowerCase : string → string) (jsonData : list val)
    (this : MapRender.t) :
  let a := DataConfig.finalSort (dataConfig this) in
  let filled (b : list DataConfig.triple) (svg : option (list val)) :=
    set_mapSvg svg
      (set_countryMapping
         (assign_all (keyed toLowerCase b) (countryMapping this)) this) in
  (all_strings a = true →
     createMap toLowerCase jsonData this
     = if paints this jsonData then Normal tt (filled a (Some jsonData))
       else Throw DataConfig.TypeError (filled a (Some jsonData)))
  ∧ (∀ pre d post,
       a = pre ++ d :: post → all_strings pre = true → is_string d.1.1 = false →
       createMap toLowerCase jsonData this
       = Throw DataConfig.TypeError (filled pre (Some [])))
  ∧ (∀ b svg,
       countryMapping (filled b svg)
         = assign_all (keyed toLowerCase b) (countryMapping this)
       ∧ mapSvg (filled b svg) = svg
       ∧ colourLegends (filled b svg) = colourLegends this
       ∧ dataConfig (filled b svg) = dataConfig this
       ∧ countryTooltip (filled b svg) = countryTooltip this
       ∧ currentIndex (filled b svg) = currentIndex this
       ∧ legendContainer (filled b svg) = legendContainer this).
Proof.
  cbv zeta. split; [|split].
  - intros H. rewrite createMap_spec. cbv zeta. rewrite H. reflexivity.
  - intros pre d post Ha Hpre Hd. rewrite createMap_spec. cbv zeta.
    rewrite Ha, all_strings_app, Hpre, (keyed_app _ _ _ Hpre).
    destruct d as [[c i] l]. cbn [fst snd] in Hd.
    cbn [all_strings forallb keyed fst snd andb].
    destruct c; try discriminate Hd; cbn [is_string andb];
      rewrite app_nil_r; reflexivity.
  - intros b svg. repeat split.
Qed.

Lemma X9_witness :
  createMap ascii_toLowerCase three_countries two_spellings
  = Normal tt
      (set_mapSvg (Some three_countries)
         (set_countryMapping
            (Set_table (Set_table empty_table "russia"
                          {| entry_income := VNumber (lit 0 0);
                             entry_labour := VNumber (lit 0 0) |})
               "russia" russia)
            two_spellings))
  ∧ createMap ascii_toLowerCase nameless_country two_spellings
    = Throw DataConfig.TypeError
        (set_mapSvg (Some nameless_country)
           (set_countryMapping
              (Set_table (Set_table empty_table "russia"
                            {| entry_income := VNumber (lit 0 0);
                               entry_labour := VNumber (lit 0 0) |})
                 "russia" russia)
              two_spellings))
  ∧ createMap ascii_toLowerCase three_countries no_country
    = Throw DataConfig.TypeError
        (set_mapSvg (Some [])
           (set_countryMapping (Set_table empty_table "russia" russia)
              no_country)).
Proof.
  split; [|split].
  - exact (proj1 (X9_createMap_fills_the_mapping ascii_toLowerCase
                    three_countries two_spellings) eq_refl).
  - exact (proj1 (X9_createMap_fills_the_mapping ascii_toLowerCase
                    nameless_country two_spellings) eq_refl).
  - apply (proj1 (proj2 (X9_createMap_fills_the_mapping ascii_toLowerCase
                           three_countries no_country))
             [(VString "Russia", VNumber (lit 1 0), VNumber (lit 1 0))]
             (VUndefined, VNumber (lit 1 0), VNumber (lit 1 0)) []);
      reflexivity.
Defined.

(** X10. When every row has a String for [setting] that names no
    property of [Object.prototype], the callback of main.js gets through
    the data: the arrays hold the normalized rows, [countryMapping] is
    filled from [finalSort] and the paths carry the map data. It completes,
    with the legend drawn, when the name of every feature is a String; when
    one is not, painting the paths ends in a TypeError and
    [legendContainer] stays [null]. *)
Theorem X10_load_completes
    (toLowerCase : string → string) (csvData : list object)
    (jsonData : list val) :
  Forall (λ row : object, ∃ s, Get row "setting" = VString s
                      ∧ Object_prototype !! s = None) csvData →
  ∃ this',
    MainRender.loaded toLowerCase csvData jsonData MainRender.mapRender
      = (if forallb is_string jsonData then Normal tt this'
         else Throw DataConfig.TypeError this')
    ∧ DataConfig.finalSort (dataConfig this')
      = normalize Main.countryConfig Main.incomeConfig Main.labourConfig csvData
    ∧ countryMapping this'
      = assign_all
          (keyed toLowerCase (DataConfig.finalSort (dataConfig this')))
          empty_table
    ∧ mapSvg this' = Some jsonData
    ∧ legendContainer this'
      = (if forallb is_string jsonData then Some tt else None).
Proof.
  intros H. rewrite loaded_spec. cbv zeta.
  replace (all_strings _) with true.
  { destruct (forallb is_string jsonData); eexists;
      (split; [reflexivity|]); repeat split. }
  symmetry. apply all_strings_Forall, Forall_forall. intros t Ht.
  apply normalize_country in Ht as (row & Hrow & ->).
  rewrite Forall_forall in H. destruct (H row Hrow) as (s & -> & Hs).
  exact (remap_string s Hs).
Qed.

Lemma X10_witness :
  ∃ this',
    MainRender.loaded ascii_toLowerCase [Scenario.urban; Scenario.rural]
      three_countries MainRender.mapRender
      = (if forallb is_string three_countries then Normal tt this'
         else Throw DataConfig.TypeError this')
    ∧ DataConfig.finalSort (dataConfig this')
      = normalize Main.countryConfig Main.incomeConfig Main.labourConfig
          [Scenario.urban; Scenario.rural]
    ∧ countryMapping this'
      = assign_all
          (keyed ascii_toLowerCase (DataConfig.finalSort (dataConfig this')))
          empty_table
    ∧ mapSvg this' = Some three_countries
    ∧ legendContainer this'
      = (if forallb is_string three_countries then Some tt else None).
Proof.
  apply X10_load_completes.
  repeat constructor; exists "Russian Federation"; split; vm_compute; reflexivity.
Defined.

(** X11. When the file has no [setting] column and stage 2 keeps at
    least one record, the callback of main.js ends in a TypeError, with
    nothing in [countryMapping], no path in the map and no legend: the
    country of the first record is [undefined]. *)
Theorem X11_no_setting_column
    (toLowerCase : string → string) (csvData : list object)
    (jsonData : list val) :
  Forall (λ row : object, row !! "setting"%string = None) csvData →
  normalize Main.countryConfig Main.incomeConfig Main.labourConfig csvData ≠ [] →
  ∃ this',
    MainRender.loaded toLowerCase csvData jsonData MainRender.mapRender
      = Throw DataConfig.TypeError this'
    ∧ countryMapping this' = empty_table
    ∧ mapSvg this' = Some []
    ∧ legendContainer this' = None.
Proof.
  intros H Hne. rewrite loaded_spec. cbv zeta.
  destruct (normalize _ _ _ _) as [|t a] eqn:E; [contradiction|].
  assert (Ht : t.1.1 = VUndefined).
  { assert (Hin : t ∈ normalize Main.countryConfig Main.incomeConfig
                         Main.labourConfig csvData)
      by (rewrite E; left).
    apply normalize_country in Hin as (row & Hrow & ->).
    rewrite Forall_forall in H.
    rewrite (Get_absent _ _ (H row Hrow)) by reflexivity.
    apply remap_undefined. }
  destruct t as [[c i] l]. cbn [fst snd] in Ht. subst c.
  cbn [all_strings forallb is_string fst snd andb keyed assign_all foldl].
  eexists. split; [reflexivity|]. repeat split.
Qed.

Lemma X11_witness :
  ∃ this',
    MainRender.loaded ascii_toLowerCase [Examples.no_setting; Examples.no_setting]
      three_countries MainRender.mapRender
      = Throw DataConfig.TypeError this'
    ∧ countryMapping this' = empty_table
    ∧ mapSvg this' = Some []
    ∧ legendContainer this' = None.
Proof.
  apply X11_no_setting_column.
  - repeat constructor; vm_compute; reflexivity.
  - vm_compute. discriminate.
Defined.

(** X12. Of several records of [finalSort] whose countries agree in
    lower case, [createMap] keeps the last: that is the entry a lookup under
    the lower-cased name finds, whether painting the paths completes or
    not. *)
Theorem X12_last_record_of_a_country_wins
    (toLowerCase : string → string) (jsonData : list val)
    (this : MapRender.t)
    (pre post : list DataConfig.triple) (c : string) (inc lab : val) :
  DataConfig.finalSort (dataConfig this) = pre ++ (VString c, inc, lab) :: post →
  all_strings (pre ++ post) = true →
  toLowerCase c ≠ "__proto__"%string →
  (∀ c' i l, (VString c', i, l) ∈ post → toLowerCase c' ≠ toLowerCase c) →
  ∃ this',
    createMap toLowerCase jsonData this
      = (if paints this jsonData then Normal tt this'
         else Throw DataConfig.TypeError this')
    ∧ Get_table (countryMapping this') (toLowerCase c)
      = FEntry {| entry_income := inc; entry_labour := lab |}.
Proof.
  intros Ha Hs Hp Hpost. rewrite all_strings_app in Hs.
  apply andb_true_iff in Hs as [Hpre Hposts].
  rewrite createMap_spec. cbv zeta. rewrite Ha.
  replace (all_strings _) with true
    by (rewrite all_strings_app, Hpre; cbn [all_strings forallb fst snd is_string];
        symmetry; exact Hposts).
  eexists. split; [destruct (paints this jsonData); reflexivity|].
  cbn [countryMapping set_countryMapping set_mapSvg].
  destruct (keyed_last toLowerCase pre c inc lab post Hpre Hpost)
    as (kpre & kpost & -> & Hk).
  apply Get_table_own, own_assign_all_last; assumption.
Qed.

Lemma X12_witness :
  ∃ this',
    createMap ascii_toLowerCase three_countries two_spellings
      = (if paints two_spellings three_countries then Normal tt this'
         else Throw DataConfig.TypeError this')
    ∧ Get_table (countryMapping this') (ascii_toLowerCase "Russia")
      = FEntry russia.
Proof.
  apply (X12_last_record_of_a_country_wins ascii_toLowerCase three_countries
           two_spellings
           [(VString "RUSSIA", VNumber (lit 0 0), VNumber (lit 0 0))] []).
  - reflexivity.
  - reflexivity.
  - vm_compute. discriminate.
  - intros c' i l H. apply elem_of_nil in H. contradiction.
Defined.

(** X13. After the load and any number of clicks, a country that no
    record names is given the neutral colour, also when its name is that of
    a property the mapping inherits, such as [constructor]. *)
Theorem X13_country_without_data_is_neutral
    (toLowerCase : string → string) (csvData : list object)
    (jsonData : list val) (k : nat)
    (this1 this2 : MapRender.t) (s : string) :
  MainRender.loaded toLowerCase csvData jsonData MainRender.mapRender
    = Normal tt this1 →
  clicks toLowerCase k this1 = Normal tt this2 →
  (∀ c i l,
     (VString c, i, l)
       ∈ normalize Main.countryConfig Main.incomeConfig Main.labourConfig csvData →
     toLowerCase c ≠ toLowerCase s) →
  updateColours toLowerCase (VString s) this2
  = Normal (Colour "#dee3e3") this2.
Proof.
  intros Hload Hclicks Hno.
  destruct (loaded_clicks _ _ _ _ _ _ Hload Hclicks)
    as (_ & Hmap & legend & _ & _ & Hlegend).
  rewrite (updateColours_spec _ _ _ _ Hlegend), Hmap.
  destruct (Get_table_unassigned
              (keyed toLowerCase
                 (normalize Main.countryConfig Main.incomeConfig
                    Main.labourConfig csvData)) (toLowerCase s)) as [v ->].
  - intros Hin. apply keyed_keys in Hin as (c & i & l & Hin & Heq).
    exact (Hno c i l Hin (eq_sym Heq)).
  - rewrite fill_of_FVal. reflexivity.
Qed.

Lemma X13_witness :
  updateColours ascii_toLowerCase (VString "Constructor") clicked_scenario
  = Normal (Colour "#dee3e3") clicked_scenario.
Proof.
  apply (X13_country_without_data_is_neutral ascii_toLowerCase
           [Scenario.urban; Scenario.rural] three_countries 1 loaded_scenario).
  - reflexivity.
  - reflexivity.
  - intros c i l H. rewrite (scenario_records c i l H).
    vm_compute. discriminate.
Defined.

(** X14. After the load and any number of clicks, [updateColours]
    returns a colour for every String name: the neutral one or a cell of one
    of the three schemes. It throws nothing and never returns what is not a
    colour. *)
Theorem X14_every_country_gets_a_colour
    (toLowerCase : string → string) (csvData : list object)
    (jsonData : list val) (k : nat)
    (this1 this2 : MapRender.t) (s : string) :
  MainRender.loaded toLowerCase csvData jsonData MainRender.mapRender
    = Normal tt this1 →
  clicks toLowerCase k this1 = Normal tt this2 →
  ∃ c,
    updateColours toLowerCase (VString s) this2 = Normal (Colour c) this2
    ∧ (c = "#dee3e3"%string ∨ palette_colour MainRender.colourLegends c).
Proof.
  intros Hload Hclicks.
  destruct (loaded_clicks _ _ _ _ _ _ Hload Hclicks)
    as (_ & Hmap & legend & Hin & _ & Hlegend).
  rewrite (updateColours_spec _ _ _ _ Hlegend), Hmap.
  destruct (Get_table _ _) as [e|v] eqn:Hget.
  - apply Get_table_assigned in Hget.
    unfold normalize in Hget. rewrite keyed_Stage3 in Hget.
    apply list_elem_of_fmap in Hget as (ke' & -> & Hget).
    apply list_elem_of_fmap in Hget as ([k0 e0] & -> & _).
    cbn [snd prod_map].
    destruct (fill_of_entry (LegendRender.colourScheme legend)
                (bucketed Main.incomeConfig Main.labourConfig e0))
      as (c & -> & Hc).
    + intros s'. apply Get_incomeConfig_not_string.
    + intros s'. apply labourConfig_not_string.
    + exists c. split; [reflexivity|].
      destruct Hc as [Hc|(row & Hrow & Hc)]; [left; exact Hc|].
      right. exists legend, row. auto.
  - rewrite fill_of_FVal. eauto.
Qed.

Lemma X14_witness :
  ∃ c,
    updateColours ascii_toLowerCase (VString "Russia") clicked_scenario
      = Normal (Colour c) clicked_scenario
    ∧ (c = "#dee3e3"%string ∨ palette_colour MainRender.colourLegends c).
Proof.
  apply (X14_every_country_gets_a_colour ascii_toLowerCase
           [Scenario.urban; Scenario.rural] three_countries 1 loaded_scenario);
    reflexivity.
Defined.

(** X15. On an instance that [renderAll] has drawn ([legendContainer] and
    [mapSvg] are set), whose legends have three rows each and whose paths
    all carry a String, every click completes, moves the index to the next
    legend and wraps round: after [k] clicks from index [i] the index is
    [(i + k) mod n] and no other field has changed, and after [n] clicks
    the instance is as it was. *)
Theorem X15_clicks_cycle_through_the_legends
    (toLowerCase : string → string) (this : MapRender.t) (i k : nat)
    (paths : list val) :
  legendContainer this = Some tt →
  mapSvg this = Some paths →
  forallb is_string paths = true →
  drawable (colourLegends this) →
  currentIndex this = Index i →
  i < length (colourLegends this) →
  ∃ this',
    clicks toLowerCase k this = Normal tt this'
    ∧ currentIndex this' = Index ((i + k) mod length (colourLegends this))
    ∧ colourLegends this' = colourLegends this
    ∧ dataConfig this' = dataConfig this
    ∧ countryMapping this' = countryMapping this
    ∧ countryTooltip this' = countryTooltip this
    ∧ mapSvg this' = mapSvg this
    ∧ legendContainer this' = legendContainer this
    ∧ clicks toLowerCase (length (colourLegends this)) this = Normal tt this.
Proof.
  intros Hc Hsvg Hpaths Hdraw Hi Hn.
  rewrite !(clicks_spec _ _ _ i paths Hc Hsvg Hpaths Hdraw Hi Hn).
  eexists. split; [reflexivity|]. repeat (split; [reflexivity|]).
  replace (i + length (colourLegends this))
    with (i + 1 * length (colourLegends this)) by lia.
  rewrite Nat.Div0.mod_add, Nat.mod_small by exact Hn.
  rewrite <- Hi, set_currentIndex_same. reflexivity.
Qed.

Lemma X15_witness :
  ∃ this',
    clicks ascii_toLowerCase 4 loaded_scenario = Normal tt this'
    ∧ currentIndex this'
      = Index ((0 + 4) mod length (colourLegends loaded_scenario))
    ∧ colourLegends this' = colourLegends loaded_scenario
    ∧ dataConfig this' = dataConfig loaded_scenario
    ∧ countryMapping this' = countryMapping loaded_scenario
    ∧ countryTooltip this' = countryTooltip loaded_scenario
    ∧ mapSvg this' = mapSvg loaded_scenario
    ∧ legendContainer this' = legendContainer loaded_scenario
    ∧ clicks ascii_toLowerCase (length (colourLegends loaded_scenario))
        loaded_scenario
      = Normal tt loaded_scenario.
Proof.
  apply (X15_clicks_cycle_through_the_legends ascii_toLowerCase
           loaded_scenario 0 4 three_countries).
  - reflexivity.
  - reflexivity.
  - reflexivity.
  - repeat constructor.
  - reflexivity.
  - vm_compute. lia.
Defined.

(** X16. Clicks that fail. Before [renderAll] has set [legendContainer],
    as on the instance the constructor leaves, a click ends in a TypeError at
    line 48 and changes nothing: the index does not move. On an instance
    made with an empty array of legends [renderAll] and [updateColours] end
    in a TypeError; once [renderAll] has set [legendContainer] there, a click
    ends in a TypeError after the remainder by zero has left the index
    NaN. *)
Theorem X16_clicks_that_fail
    (toLowerCase : string → string) (this : MapRender.t) :
  (legendContainer this = None →
     ∀ k, clicks toLowerCase (S k) this = Throw DataConfig.TypeError this)
  ∧ (colourLegends this = [] →
       (∀ jsonData, ∃ this',
          renderAll toLowerCase jsonData this = Throw DataConfig.TypeError this')
       ∧ (∀ name, updateColours toLowerCase name this
                  = Throw DataConfig.TypeError this)
       ∧ (legendContainer this = Some tt →
            ∃ this',
              (∀ k, clicks toLowerCase (S k) this
                    = Throw DataConfig.TypeError this')
              ∧ currentIndex this' = IndexNaN
              ∧ colourLegends this' = colourLegends this
              ∧ dataConfig this' = dataConfig this
              ∧ countryMapping this' = countryMapping this
              ∧ countryTooltip this' = countryTooltip this
              ∧ mapSvg this' = mapSvg this
              ∧ legendContainer this' = legendContainer this)).
Proof.
  split.
  { intros Hc k. cbn [clicks]. unfold mbind at 1, M_bind at 1.
    rewrite cycleLegends_spec, Hc. reflexivity. }
  intros Hnone. split; [|split].
  - intros jsonData. rewrite renderAll_spec. cbv zeta.
    destruct (all_strings _); [|eauto].
    destruct (paints this jsonData); [|eauto].
    rewrite current_legend_none by exact Hnone. eauto.
  - intros name. unfold updateColours, mbind, M_bind.
    rewrite current_legend_none by exact Hnone. reflexivity.
  - intros Hc. exists (set_currentIndex IndexNaN this).
    split; [|repeat split].
    intros k. cbn [clicks]. unfold mbind at 1, M_bind at 1.
    rewrite cycleLegends_spec, Hc. cbv zeta.
    rewrite current_legend_none by exact Hnone.
    rewrite Hnone. cbn [length].
    replace (next_index (currentIndex this) 0) with IndexNaN
      by (destruct (currentIndex this); reflexivity).
    reflexivity.
Qed.

Lemma X16_witness :
  clicks ascii_toLowerCase 1 MainRender.mapRender
    = Throw DataConfig.TypeError MainRender.mapRender
  ∧ renderAll ascii_toLowerCase [] no_legends
    = Throw DataConfig.TypeError no_legends_rendered
  ∧ ∃ this',
      (∀ k, clicks ascii_toLowerCase (S k) no_legends_rendered
            = Throw DataConfig.TypeError this')
      ∧ currentIndex this' = IndexNaN
      ∧ colourLegends this' = colourLegends no_legends_rendered
      ∧ dataConfig this' = dataConfig no_legends_rendered
      ∧ countryMapping this' = countryMapping no_legends_rendered
      ∧ countryTooltip this' = countryTooltip no_legends_rendered
      ∧ mapSvg this' = mapSvg no_legends_rendered
      ∧ legendContainer this' = legendContainer no_legends_rendered.
Proof.
  split; [|split].
  - apply (proj1 (X16_clicks_that_fail ascii_toLowerCase MainRender.mapRender)).
    reflexivity.
  - reflexivity.
  - apply (proj2 (X16_clicks_that_fail ascii_toLowerCase no_legends_rendered));
      reflexivity.
Defined.

(** X17. The fill callback that [cycleLegends] installs returns what
    [updateColours] returns, on every instance with the same legends and the
    same index: the two copies of the colour rule agree. *)
Theorem X17_callback_is_updateColours
    (toLowerCase : string → string) (this this1 this2 : MapRender.t)
    (f : val → M fill) (name : val) :
  cycleLegends toLowerCase this = Normal f this1 →
  colourLegends this2 = colourLegends this1 →
  currentIndex this2 = currentIndex this1 →
  f name this2 = updateColours toLowerCase name this2.
Proof.
  rewrite cycleLegends_spec.
  destruct (legendContainer this); [|discriminate]. cbv zeta.
  destruct (current_legend _) as [legend this'|] eqn:Hl; [|discriminate].
  destruct (LegendRender.createLegend legend); [|discriminate].
  destruct (mapSvg this) as [paths|]; [|discriminate].
  destruct (forallb is_string paths); [|discriminate].
  intros [= <- <-] Hlegends Hindex.
  unfold updateColours, fill_callback. unfold mbind at 3, M_bind at 3.
  rewrite (current_legend_ext _ _ _ _ Hlegends Hindex Hl). reflexivity.
Qed.

Lemma X17_witness :
  fill_callback ascii_toLowerCase MainRender.PuBuColourScheme
    (VString "Russia") clicked_scenario
  = updateColours ascii_toLowerCase (VString "Russia") clicked_scenario.
Proof.
  apply (X17_callback_is_updateColours ascii_toLowerCase loaded_scenario
           clicked_scenario); reflexivity.
Defined.

(** X18. [updateTooltip] refills [countryTooltip] on every call, with the
    entries of the records of [secondSort], and a call before changes
    nothing: hovering over a country gives the text and the instance it
    gives without the earlier hover, also when that one ended in a
    TypeError. *)
Theorem X18_hovering_before_changes_nothing
    (toLowerCase : string → string) (this : MapRender.t) (name name' : val) :
  updateTooltip toLowerCase name
    (state_of (updateTooltip toLowerCase name' this))
  = updateTooltip toLowerCase name this
  ∧ countryTooltip (state_of (updateTooltip toLowerCase name this))
    = assign_all
        (keyed toLowerCase (DataConfig.secondSort (dataConfig this)))
        (countryTooltip this).
Proof.
  assert (Hstate : ∀ n,
    state_of (updateTooltip toLowerCase n this)
    = set_countryTooltip
        (assign_all
           (keyed toLowerCase (DataConfig.secondSort (dataConfig this)))
           (countryTooltip this)) this).
  { intros n. rewrite updateTooltip_spec. cbv zeta.
    destruct (all_strings _); [apply state_of_tooltip_html | reflexivity]. }
  split; [|rewrite Hstate; reflexivity].
  rewrite Hstate, !updateTooltip_spec. cbv zeta.
  cbn [dataConfig countryTooltip set_countryTooltip].
  rewrite assign_all_again. reflexivity.
Qed.

(** X19. After the load and a hover, the two lookup objects agree:
    [countryMapping] holds under each key the bucketed entry of
    [countryTooltip], and its prototype likewise. *)
Theorem X19_mapping_is_the_bucketed_tooltip
    (toLowerCase : string → string) (csvData : list object)
    (jsonData : list val) (this1 : MapRender.t) (name : val) :
  MainRender.loaded toLowerCase csvData jsonData MainRender.mapRender
    = Normal tt this1 →
  let this2 := state_of (updateTooltip toLowerCase name this1) in
  own (countryMapping this2)
    = bucketed Main.incomeConfig Main.labourConfig <$> own (countryTooltip this2)
  ∧ proto (countryMapping this2)
    = bucketed Main.incomeConfig Main.labourConfig <$> proto (countryTooltip this2).
Proof.
  intros Hload.
  destruct (hover_after_load _ _ _ _ name Hload) as (_ & Hmap & ->).
  cbv zeta. rewrite state_of_tooltip_html.
  cbn [countryMapping countryTooltip set_countryTooltip]. rewrite Hmap.
  rewrite keyed_Stage3. apply assign_all_bucketed.
  - cbn. rewrite fmap_empty. reflexivity.
  - reflexivity.
Qed.

Lemma X19_witness :
  own (countryMapping
         (state_of (updateTooltip ascii_toLowerCase (VString "Russia")
                      loaded_scenario)))
  = bucketed Main.incomeConfig Main.labourConfig
    <$> own (countryTooltip
               (state_of (updateTooltip ascii_toLowerCase (VString "Russia")
                            loaded_scenario)))
  ∧ proto (countryMapping
             (state_of (updateTooltip ascii_toLowerCase (VString "Russia")
                          loaded_scenario)))
    = bucketed Main.incomeConfig Main.labourConfig
      <$> proto (countryTooltip
                   (state_of (updateTooltip ascii_toLowerCase
                                (VString "Russia") loaded_scenario))).
Proof.
  apply (X19_mapping_is_the_bucketed_tooltip ascii_toLowerCase
           [Scenario.urban; Scenario.rural] three_countries loaded_scenario
           (VString "Russia")).
  reflexivity.
Defined.

(** X20. After the load, hovering over a country that stage 2 has a
    record for shows the name as the map spells it, the income label and the
    participation rate of the last such record, matched in lower case. *)
Theorem X20_tooltip_text
    (toLowerCase : string → string) (csvData : list object)
    (jsonData : list val)
    (this1 : MapRender.t) (pre post : list DataConfig.triple)
    (c s : string) (inc lab : val) :
  MainRender.loaded toLowerCase csvData jsonData MainRender.mapRender
    = Normal tt this1 →
  Stage2 Main.countryConfig (Stage1 csvData)
    = pre ++ (VString c, inc, lab) :: post →
  (∀ c' i l, (VString c', i, l) ∈ post → toLowerCase c' ≠ toLowerCase c) →
  toLowerCase c ≠ "__proto__"%string →
  toLowerCase s = toLowerCase c →
  ∃ this2,
    updateTooltip toLowerCase (VString s) this1
    = Normal
        (Some (s +:+ "<br>" +:+ "Income: " +:+ ToString inc +:+ "<br>"
               +:+ "Labour: " +:+ ToString lab +:+ "%"))
        this2.
Proof.
  intros Hload Ha Hpost Hp Hs.
  destruct (hover_after_load _ _ _ _ (VString s) Hload) as (Hall & _ & ->).
  assert (Hlab : ∃ t, lab = VString t).
  { apply (Stage2_labour Main.countryConfig csvData (VString c, inc, lab)).
    rewrite Ha. apply elem_of_app. right. left. }
  destruct Hlab as [t ->].
  rewrite Ha in *. rewrite all_strings_app in Hall.
  apply andb_true_iff in Hall as [Hpre _].
  destruct (keyed_last toLowerCase pre c inc (VString t) post Hpre Hpost)
    as (kpre & kpost & Hk & Hnot).
  unfold tooltip_html. unfold mbind at 1, M_bind at 1.
  cbn [call_toLowerCase mret M_ret]. unfold mbind at 1, M_bind at 1, gets at 1.
  cbn [countryTooltip set_countryTooltip]. rewrite Hs, Hk.
  rewrite (Get_table_own _ _ _ (own_assign_all_last _ _ _ _ _ Hp Hnot)).
  eexists. reflexivity.
Qed.

Lemma X20_witness :
  ∃ this2,
    updateTooltip ascii_toLowerCase (VString "RUSSIA") loaded_scenario
    = Normal
        (Some ("RUSSIA" +:+ "<br>" +:+ "Income: "
               +:+ ToString (VString "Upper middle income") +:+ "<br>"
               +:+ "Labour: " +:+ ToString (VString "50.4") +:+ "%"))
        this2.
Proof.
  apply (X20_tooltip_text ascii_toLowerCase [Scenario.urban; Scenario.rural]
           three_countries loaded_scenario [] [] "Russia").
  - reflexivity.
  - vm_compute. reflexivity.
  - intros c' i l H. apply elem_of_nil in H. contradiction.
  - vm_compute. discriminate.
  - vm_compute. reflexivity.
Defined.

(** X21. After the load, hovering over a country that no record names
    shows no tooltip, unless its lower-cased name is that of a property of
    [Object.prototype]: then the lookup finds a built-in object, which has no
    [labour], and [toString] on [undefined] is a TypeError. *)
Theorem X21_tooltip_of_a_country_without_data
    (toLowerCase : string → string) (csvData : list object)
    (jsonData : list val) (this1 : MapRender.t) (s : string) :
  MainRender.loaded toLowerCase csvData jsonData MainRender.mapRender
    = Normal tt this1 →
  (∀ c i l,
     (VString c, i, l) ∈ Stage2 Main.countryConfig (Stage1 csvData) →
     toLowerCase c ≠ toLowerCase s ∧ toLowerCase c ≠ "__proto__"%string) →
  ∃ this2,
    updateTooltip toLowerCase (VString s) this1
    = match Object_prototype !! toLowerCase s with
      | None => Normal None this2
      | Some _ => Throw DataConfig.TypeError this2
      end.
Proof.
  intros Hload Hno.
  destruct (hover_after_load _ _ _ _ (VString s) Hload) as (_ & _ & ->).
  unfold tooltip_html. unfold mbind at 1, M_bind at 1.
  cbn [call_toLowerCase mret M_ret]. unfold mbind at 1, M_bind at 1, gets at 1.
  cbn [countryTooltip set_countryTooltip].
  rewrite Get_table_plain.
  - destruct (Object_prototype !! toLowerCase s) as [v|] eqn:Hp.
    + apply Object_prototype_objects in Hp as [b ->]. eexists. reflexivity.
    + eexists. reflexivity.
  - rewrite own_assign_all_other; [apply lookup_empty|].
    intros Hin. apply keyed_keys in Hin as (c & i & l & Hin & Heq).
    destruct (Hno c i l Hin) as [H _]. exact (H (eq_sym Heq)).
  - rewrite proto_assign_all_other; [reflexivity|].
    intros Hin. apply keyed_keys in Hin as (c & i & l & Hin & Heq).
    destruct (Hno c i l Hin) as [_ H]. exact (H (eq_sym Heq)).
Qed.

Lemma X21_witness :
  ∃ this2,
    updateTooltip ascii_toLowerCase (VString "Constructor") loaded_scenario
    = match Object_prototype !! ascii_toLowerCase "Constructor" with
      | None => Normal None this2
      | Some _ => Throw DataConfig.TypeError this2
      end.
Proof.
  apply (X21_tooltip_of_a_country_without_data ascii_toLowerCase
           [Scenario.urban; Scenario.rural] three_countries).
  - reflexivity.
  - intros c i l H.
    replace (Stage2 Main.countryConfig (Stage1 [Scenario.urban; Scenario.rural]))
      with [(VString "Russia", VString "Upper middle income", VString "50.4")]
      in H by (vm_compute; reflexivity).
    apply list_elem_of_singleton in H. injection H as -> _ _.
    split; vm_compute; discriminate.
Defined.

(** X22. After the load and any number of clicks, a country whose last
    record has one of the income labels of [incomeConfig] is given the cell
    of the current scheme at its income tertile and its labour tertile. *)
Theorem X22_colour_of_a_country
    (toLowerCase : string → string) (csvData : list object)
    (jsonData : list val) (k : nat)
    (this1 this2 : MapRender.t) (pre post : list DataConfig.triple)
    (c s : string) (inc rate v : val) :
  MainRender.loaded toLowerCase csvData jsonData MainRender.mapRender
    = Normal tt this1 →
  clicks toLowerCase k this1 = Normal tt this2 →
  Stage2 Main.countryConfig (Stage1 csvData)
    = pre ++ (VString c, inc, rate) :: post →
  (∀ c' i l, (VString c', i, l) ∈ post → toLowerCase c' ≠ toLowerCase c) →
  toLowerCase c ≠ "__proto__"%string →
  toLowerCase s = toLowerCase c →
  Main.incomeConfig !! ToString inc = Some v →
  ∃ legend a b colour,
    current_legend this2 = Normal legend this2
    ∧ array_key v = KIndex a
    ∧ array_key (Main.labourConfig rate) = KIndex b
    ∧ LegendRender.colourScheme legend !! a ≫= (.!! b) = Some colour
    ∧ updateColours toLowerCase (VString s) this2 = Normal (Colour colour) this2.
Proof.
  intros Hload Hclicks Ha Hpost Hp Hs Hk.
  destruct (loaded_clicks _ _ _ _ _ _ Hload Hclicks)
    as (Hall & Hmap & legend & Hin & _ & Hlegend).
  destruct (cell_of_tertiles legend _ v rate Hin Hk)
    as (a & b & colour & Hka & Hkb & Hcell & Hfill).
  exists legend, a, b, colour. repeat (split; [assumption|]).
  rewrite (updateColours_spec _ _ _ _ Hlegend), Hmap, Hs.
  unfold normalize in Hall |- *. rewrite all_strings_Stage3 in Hall.
  rewrite Ha in Hall |- *. rewrite all_strings_app in Hall.
  apply andb_true_iff in Hall as [Hpre _].
  rewrite keyed_Stage3.
  destruct (keyed_last toLowerCase pre c inc rate post Hpre Hpost)
    as (kpre & kpost & -> & Hnot).
  rewrite fmap_app, fmap_cons. cbn [prod_map fst snd id].
  rewrite (Get_table_own _ _ (bucketed Main.incomeConfig Main.labourConfig
                               {| entry_income := inc; entry_labour := rate |})).
  - unfold bucketed. cbn [entry_income entry_labour].
    rewrite (Get_own _ _ _ Hk), Hfill. reflexivity.
  - apply own_assign_all_last; [exact Hp|].
    rewrite keys_bucketed. exact Hnot.
Qed.

Lemma X22_witness :
  ∃ legend a b colour,
    current_legend clicked_scenario = Normal legend clicked_scenario
    ∧ array_key (VNumber (lit 1 0)) = KIndex a
    ∧ array_key (Main.labourConfig (VString "50.4")) = KIndex b
    ∧ LegendRender.colourScheme legend !! a ≫= (.!! b) = Some colour
    ∧ updateColours ascii_toLowerCase (VString "RUSSIA") clicked_scenario
      = Normal (Colour colour) clicked_scenario.
Proof.
  apply (X22_colour_of_a_country ascii_toLowerCase
           [Scenario.urban; Scenario.rural] three_countries 1 loaded_scenario
           clicked_scenario [] [] "Russia" "RUSSIA"
           (VString "Upper middle income")).
  - reflexivity.
  - reflexivity.
  - vm_compute. reflexivity.
  - intros c' i l H. apply elem_of_nil in H. contradiction.
  - vm_compute. discriminate.
  - vm_compute. reflexivity.
  - vm_compute. reflexivity.
Defined.

(** X23. [createLegend] completes exactly when the scheme has at least
    three rows, whatever the rows hold; with fewer it ends in a TypeError.
    On an instance whose current legend has fewer, [renderAll] therefore
    ends in a TypeError once the map is painted, with [legendContainer]
    set, and a click on an instance whose next legend has fewer ends in a
    TypeError with the index moved. *)
Theorem X23_legend_needs_three_rows
    (toLowerCase : string → string) (legend : LegendRender.t) :
  (LegendRender.createLegend legend = LegendRender.Normal
   ↔ 3 ≤ length (LegendRender.colourScheme legend))
  ∧ (LegendRender.createLegend legend
       = LegendRender.Throw DataConfig.TypeError
     ↔ length (LegendRender.colourScheme legend) < 3)
  ∧ (length (LegendRender.colourScheme legend) < 3 →
     ∀ this jsonData,
       current_legend this = Normal legend this →
       all_strings (DataConfig.finalSort (dataConfig this)) = true →
       forallb is_string jsonData = true →
       ∃ this',
         renderAll toLowerCase jsonData this = Throw DataConfig.TypeError this'
         ∧ legendContainer this' = Some tt
         ∧ mapSvg this' = Some jsonData)
  ∧ (length (LegendRender.colourScheme legend) < 3 →
     ∀ this,
       legendContainer this = Some tt →
       current_legend
         (set_currentIndex
            (next_index (currentIndex this) (length (colourLegends this))) this)
         = Normal legend
             (set_currentIndex
                (next_index (currentIndex this) (length (colourLegends this)))
                this) →
       ∃ this',
         cycleLegends toLowerCase this = Throw DataConfig.TypeError this'
         ∧ currentIndex this'
           = next_index (currentIndex this) (length (colourLegends this))).
Proof.
  assert (Hrows :
    (LegendRender.createLegend legend = LegendRender.Normal
     ↔ 3 ≤ length (LegendRender.colourScheme legend))
    ∧ (LegendRender.createLegend legend
         = LegendRender.Throw DataConfig.TypeError
       ↔ length (LegendRender.colourScheme legend) < 3)).
  { unfold LegendRender.createLegend.
    destruct (LegendRender.colourScheme legend) as [|r0 [|r1 [|r2 rest]]];
      cbn; split; split; intros H; try discriminate; try lia; reflexivity. }
  destruct Hrows as [Hok Hfail]. split; [exact Hok|]. split; [exact Hfail|].
  split.
  - intros Hshort this jsonData Hlegend Hall Hnames.
    apply Hfail in Hshort.
    rewrite renderAll_spec. cbv zeta. rewrite Hall.
    rewrite paints_strings
      by (unfold has_legend; rewrite Hlegend; reflexivity).
    rewrite Hnames, Hlegend, Hshort. eexists. repeat split.
  - intros Hshort this Hc Hlegend. apply Hfail in Hshort.
    rewrite cycleLegends_spec, Hc. cbv zeta. rewrite Hlegend, Hshort.
    eexists. split; reflexivity.
Qed.

Lemma X23_witness :
  ∃ this',
    renderAll ascii_toLowerCase three_countries two_rows
      = Throw DataConfig.TypeError this'
    ∧ legendContainer this' = Some tt
    ∧ mapSvg this' = Some three_countries.
Proof.
  destruct (X23_legend_needs_three_rows ascii_toLowerCase
              (LegendRender.constructor
                 [["#c1b1c4"; "#e39db2"]; ["#9ed0de"; "#a1819b"]]))
    as (_ & _ & H & _).
  apply H.
  - vm_compute. lia.
  - reflexivity.
  - reflexivity.
  - reflexivity.
Defined.
